(** * Geolocation fusion engine: triangulation estimator and pixel-to-geo mapper

    A shallow embedding of [src/geo/geo_triangulation.py] (class
    [GeoTriangulation]) and of the GPS extraction and pixel mapping of
    [src/geo/geo_correlator.py] (class [GeoCorrelator]).

    Numbers.  The program computes on binary64 floats (Python [float],
    [numpy.float64]).  They are idealised here as real numbers: rounding is
    ignored, [np.sin], [np.cos], [np.tanh] and [np.sqrt] are the real
    functions, and [np.radians]/[np.degrees] scale by the real [PI].
    Where the program divides by zero it gets an infinity or a NaN; the
    model has the total division of the real numbers there, and a statement
    that needs a divisor to be non-zero carries that as a hypothesis.

    State.  [self.observations] is a dictionary from target ids to lists of
    observation dictionaries; it is a [gmap string (list Observation)] that
    the methods thread through a small state monad.  The wall clock
    ([time.time()]) and the random identifier of [create_target]
    ([uuid.uuid4()]) are inputs of the operations that read them. *)

From stdpp Require Import gmap strings pretty list.
From Stdlib Require Import Reals Lra Permutation Machin.

Local Open Scope R_scope.

(** ** numpy primitives used by the engine *)

Module Np.

(** [np.radians] and [np.degrees]. *)
Definition radians (x : R) : R := x * (PI / 180).
Definition degrees (x : R) : R := x * (180 / PI).

(** [np.sum] of a one-dimensional array. *)
Definition sum (l : list R) : R := foldr Rplus 0 l.

(** [np.average] of a one-dimensional array without weights. *)
Definition average (l : list R) : R := sum l / INR (length l).

(** [np.max]; the program only calls it on arrays of two or more entries
    (numpy raises on an empty one, which is rendered as 0). *)
Definition max (l : list R) : R :=
  match l with
  | [] => 0
  | x :: t => foldr Rmax x t
  end.

(** [np.linalg.norm] of one row of a two-column array. *)
Definition norm2 (p : R * R) : R := sqrt (p.1 * p.1 + p.2 * p.2).

End Np.

(** ** Data model *)

(** [drone_position]: the dictionary [{latitude, longitude, altitude}]. *)
Record DronePosition := mkDronePosition {
  latitude : R;
  longitude : R;
  altitude : R
}.

(** One stored observation (the dictionary appended by [add_observation]). *)
Record Observation := mkObservation {
  id : string;
  drone_position : DronePosition;
  target_bearing : R;
  target_elevation : R;
  confidence : R;
  timestamp : R
}.

(** [self.observations]. *)
Abbreviation Engine := (gmap string (list Observation)).

(** The arrays built by [_extract_observation_data]. *)
Record ObservationData := mkObservationData {
  positions : list (R * R * R);
  bearings : list R;
  elevations : list R;
  weights : list R
}.

(** The ["precision"] dictionary of a result. *)
Record PrecisionMetrics := mkPrecisionMetrics {
  meters : R;
  precision_confidence : R;
  max_deviation_meters : R
}.

(** The dictionary returned by [_build_result]. *)
Record PositionEstimate := mkPositionEstimate {
  est_target_id : string;
  est_latitude : R;
  est_longitude : R;
  est_altitude : R;
  precision : PrecisionMetrics;
  observations_count : nat;
  est_timestamp : R
}.

(** The two [{"error": ...}] dictionaries of [_validate_observations]:
    [NotFound t] is ["Objetivo t no encontrado"], [InsufficientData n] is
    ["Se requieren al menos 2 observaciones (actual: n)"]. *)
Inductive TriangulationError :=
| NotFound (target_id : string)
| InsufficientData (observation_count : nat).

Definition error_message (e : TriangulationError) : string :=
  match e with
  | NotFound t => "Objetivo " +:+ t +:+ " no encontrado"
  | InsufficientData n =>
      "Se requieren al menos 2 observaciones (actual: " +:+ pretty n +:+ ")"
  end.

(** What [calculate_position] returns: a dictionary with an ["error"] key or
    a computed estimate. *)
Inductive CalcResult :=
| CalcError (e : TriangulationError)
| CalcOk (r : PositionEstimate).

(** ** A state monad for the methods of [GeoTriangulation] *)

Definition M (A : Type) : Type := Engine -> A * Engine.

Definition get_observations : M Engine := fun s => (s, s).
Definition put_observations (s' : Engine) : M unit := fun _ => (tt, s').

#[global] Instance M_ret : MRet M := fun A a s => (a, s).
#[global] Instance M_bind : MBind M :=
  fun A B k m s => let '(a, s') := m s in k a s'.

(** ** The triangulation estimator *)

Module GeoTriangulation.

Definition earth_radius : R := 6371000.

(** [_estimate_distance]: [elevation] is in radians.  The value of the local
    [distance] before [min(distance, 10000)] has a name of its own. *)
Definition distance_before_clamp (altitude elevation : R) : R :=
  if Rlt_dec 0 elevation then altitude / sin elevation else 1000.

Definition _estimate_distance (altitude elevation : R) : R :=
  let distance := distance_before_clamp altitude elevation in
  Rmin distance 10000.

(** [_calculate_target_coordinates]: [lat], [lon] in degrees, [bearing] in
    radians. *)
Definition _calculate_target_coordinates
    (lat lon bearing distance earth_radius : R) : R * R :=
  let lat_rad := Np.radians lat in
  let lon_rad := Np.radians lon in
  let target_lat_rad := lat_rad + (distance / earth_radius) * cos bearing in
  let target_lon_rad :=
    lon_rad + (distance / earth_radius) * sin bearing / cos lat_rad in
  (Np.degrees target_lat_rad, Np.degrees target_lon_rad).

(** [_extract_observation_data]. *)
Definition _extract_observation_data (observations : list Observation)
    : ObservationData :=
  {| positions :=
       map (fun obs => let pos := drone_position obs in
                       (latitude pos, longitude pos, altitude pos))
           observations;
     bearings := map target_bearing observations;
     elevations := map target_elevation observations;
     weights := map confidence observations |}.

(** The body of the loop of [_calculate_estimated_points] at one index. *)
Definition estimated_point (position : R * R * R) (bearing_deg elevation_deg : R)
    : R * R :=
  let '(lat, lon, alt) := position in
  let bearing := Np.radians bearing_deg in
  let elevation := Np.radians elevation_deg in
  let distance := _estimate_distance alt elevation in
  _calculate_target_coordinates lat lon bearing distance earth_radius.

(** The loop [for i in range(len(positions))], reading the three arrays at
    the same index. *)
Fixpoint estimated_points_loop (ps : list (R * R * R)) (bs es : list R)
    : list (R * R) :=
  match ps, bs, es with
  | p :: ps', b :: bs', e :: es' =>
      estimated_point p b e :: estimated_points_loop ps' bs' es'
  | _, _, _ => []
  end.

Definition _calculate_estimated_points (d : ObservationData) : list (R * R) :=
  estimated_points_loop (positions d) (bearings d) (elevations d).


(** [np.average(a, axis=0, weights=wgt)] on a two-column array: the columns
    of [a * wgt] are summed and divided by [scl = wgt.sum()].  numpy raises
    when [scl == 0.0]; the weights passed by the caller are normalised, so
    [scl] is 1 when the confidences do not sum to zero and a NaN when they
    do, and the test never holds. *)
Definition average_axis0 (a : list (R * R)) (wgt : list R) : R * R :=
  let scl := Np.sum wgt in
  (Np.sum (zip_with Rmult (map fst a) wgt) / scl,
   Np.sum (zip_with Rmult (map snd a) wgt) / scl).

(** The normalisation step of [_calculate_weighted_average]:
    [weights / np.sum(weights)].  When the weights sum to zero the program
    gets NaN weights and, from them, a NaN position; the quotient below is
    then the total division's, so statements about values computed from
    these weights carry [Np.sum weights <> 0]. *)
Definition normalized_weights (weights : list R) : list R :=
  map (fun w => w / Np.sum weights) weights.

(** [_calculate_weighted_average]. *)
Definition _calculate_weighted_average
    (estimated_points : list (R * R)) (weights : list R) : R * R :=
  average_axis0 estimated_points (normalized_weights weights).

(** [np.linalg.norm(estimated_points - weighted_position, axis=1)]. *)
Definition distances_from (estimated_points : list (R * R))
    (weighted_position : R * R) : list R :=
  map (fun p => Np.norm2 (p.1 - weighted_position.1, p.2 - weighted_position.2))
      estimated_points.

(** The unclamped confidence score of [_calculate_precision_metrics]. *)
Definition raw_confidence (avg_distance : R) (num_observations : nat) : R :=
  100 * (1 - avg_distance / 0.001) * tanh (INR num_observations / 3).

(** [_calculate_precision_metrics]; Python's [max(0, min(99, c))]. *)
Definition _calculate_precision_metrics (estimated_points : list (R * R))
    (weighted_position : R * R) (num_observations : nat) : PrecisionMetrics :=
  let distances := distances_from estimated_points weighted_position in
  let max_distance := Np.max distances in
  let avg_distance := Np.average distances in
  let c := raw_confidence avg_distance num_observations in
  let c := Rmax 0 (Rmin 99 c) in
  {| meters := avg_distance * 111000;
     precision_confidence := c;
     max_deviation_meters := max_distance * 111000 |}.

(** [_build_result]; [now] is the value of [time.time()]. *)
Definition _build_result (target_id : string) (weighted_position : R * R)
    (precision_metrics : PrecisionMetrics) (observation_count : nat) (now : R)
    : PositionEstimate :=
  {| est_target_id := target_id;
     est_latitude := weighted_position.1;
     est_longitude := weighted_position.2;
     est_altitude := 0;
     precision := precision_metrics;
     observations_count := observation_count;
     est_timestamp := now |}.

(** [_validate_observations]: [None] stands for [{"valid": True}]. *)
Definition _validate_observations (target_id : string)
    : M (option TriangulationError) :=
  all ← get_observations;
  match all !! target_id with
  | None => mret (Some (NotFound target_id))
  | Some l =>
      let observation_count := length l in
      if (observation_count <? 2)%nat
      then mret (Some (InsufficientData observation_count))
      else mret None
  end.

(** The computation of [calculate_position] once the observations of the
    target have been read. *)
Definition position_of (target_id : string) (observations : list Observation)
    (now : R) : PositionEstimate :=
  let observation_data := _extract_observation_data observations in
  let estimated_points := _calculate_estimated_points observation_data in
  let weighted_position :=
    _calculate_weighted_average estimated_points (weights observation_data) in
  let precision_metrics :=
    _calculate_precision_metrics estimated_points weighted_position
      (length observations) in
  _build_result target_id weighted_position precision_metrics
    (length observations) now.

(** [calculate_position].  [self.observations[target_id]] is read after the
    validation has found the key, so the lookup cannot fail. *)
Definition calculate_position (target_id : string) (now : R) : M CalcResult :=
  validation_result ← _validate_observations target_id;
  match validation_result with
  | Some e => mret (CalcError e)
  | None =>
      all ← get_observations;
      let observations := default [] (all !! target_id) in
      mret (CalcOk (position_of target_id observations now))
  end.

(** The f-string [f"{target_id}_{n}"]. *)
Definition observation_id_of (target_id : string) (n : nat) : string :=
  target_id +:+ "_" +:+ pretty n.

(** [add_observation]; [now] is the value of [time.time()]. *)
Definition add_observation (target_id : string) (drone_position : DronePosition)
    (target_bearing target_elevation confidence now : R) : M string :=
  all ← get_observations;
  match all !! target_id with
  | None => put_observations (<[target_id := []]> all)
  | Some _ => mret tt
  end;;
  all ← get_observations;
  let stored := default [] (all !! target_id) in
  let observation_id := observation_id_of target_id (length stored) in
  put_observations
    (<[target_id := stored ++ [mkObservation observation_id drone_position
                                 target_bearing target_elevation confidence now]]>
       all);;
  mret observation_id.

(** [reset_target]. *)
Definition reset_target (target_id : string) : M bool :=
  all ← get_observations;
  match all !! target_id with
  | Some _ => put_observations (delete target_id all);; mret true
  | None => mret false
  end.

(** [create_target]; [uuid_hex8] is [uuid.uuid4().hex[:8]]. *)
Definition create_target (uuid_hex8 : string) : M string :=
  let target_id := "target_" +:+ uuid_hex8 in
  all ← get_observations;
  put_observations (<[target_id := []]> all);;
  mret target_id.

(** [get_all_targets]: [list(self.observations.keys())].  The list holds
    every key once; Python lists the keys in insertion order, which the map
    does not record, so only membership in the list is meaningful here. *)
Definition get_all_targets : M (list string) :=
  all ← get_observations;
  mret (elements (dom all)).

End GeoTriangulation.

Import GeoTriangulation.

(** ** Sequences of calls on the engine *)

(** One call of the three mutating methods, with the values it reads from
    its caller, from the clock and from the identifier generator. *)
Inductive Call :=
| AddObservation (target_id : string) (drone_position : DronePosition)
    (target_bearing target_elevation confidence now : R)
| ResetTarget (target_id : string)
| CreateTarget (uuid_hex8 : string).

(** Runs one call; the observation id is returned for [add_observation]. *)
Definition run_call (c : Call) : M (option string) :=
  match c with
  | AddObservation t pos b e w now =>
      oid ← GeoTriangulation.add_observation t pos b e w now; mret (Some oid)
  | ResetTarget t => GeoTriangulation.reset_target t;; mret None
  | CreateTarget h => GeoTriangulation.create_target h;; mret None
  end.

(** The target a call is about. *)
Definition call_target (c : Call) : string :=
  match c with
  | AddObservation t _ _ _ _ _ => t
  | ResetTarget t => t
  | CreateTarget h => "target_" +:+ h
  end.

Definition is_add (c : Call) : bool :=
  match c with AddObservation _ _ _ _ _ _ => true | _ => false end.

(** The engine after a sequence of calls. *)
Fixpoint run_calls (cs : list Call) (s : Engine) : Engine :=
  match cs with
  | [] => s
  | c :: cs' => run_calls cs' (run_call c s).2
  end.

(** The observation ids that the [add_observation] calls of a sequence
    return for target [t], in call order. *)
Fixpoint returned_ids (t : string) (cs : list Call) (s : Engine) : list string :=
  match cs with
  | [] => []
  | c :: cs' =>
      let '(r, s') := run_call c s in
      match r with
      | Some oid =>
          if String.eqb (call_target c) t
          then oid :: returned_ids t cs' s'
          else returned_ids t cs' s'
      | None => returned_ids t cs' s'
      end
  end.

(** No call of the sequence deletes or re-creates the bucket of [t]. *)
Definition keeps_target (t : string) (cs : list Call) : bool :=
  forallb (fun c => is_add c || negb (String.eqb (call_target c) t)) cs.

(** What the caller of [add_observation] supplies, and the clock value the
    call reads. *)
Record Sighting := mkSighting {
  s_position : DronePosition;
  s_bearing : R;
  s_elevation : R;
  s_confidence : R
}.

Definition add_sightings (t : string) (l : list (Sighting * R)) : list Call :=
  map (fun '(g, now) =>
         AddObservation t (s_position g) (s_bearing g) (s_elevation g)
           (s_confidence g) now) l.

Definition sighting_of (o : Observation) : Sighting :=
  mkSighting (drone_position o) (target_bearing o) (target_elevation o)
    (confidence o).

(** The point that [_calculate_estimated_points] derives from one sighting. *)
Definition sighting_point (g : Sighting) : R * R :=
  let pos := s_position g in
  estimated_point (latitude pos, longitude pos, altitude pos)
    (s_bearing g) (s_elevation g).

(** ** The GPS validation and the pixel mapper of [GeoCorrelator] *)

Module GeoCorrelator.

(** The telemetry dictionary, with numeric values; an absent key is
    [None]. *)
Record Gps := mkGps {
  gps_latitude : option R;
  gps_longitude : option R
}.

Record Orientation := mkOrientation {
  yaw : option R;
  pitch : option R;
  roll : option R
}.

Record Telemetry := mkTelemetry {
  gps : option Gps;
  tel_altitude : option R;
  orientation : option Orientation
}.

(** The dictionary returned by [_extract_gps_data] on success. *)
Record GpsData := mkGpsData {
  gd_latitude : R;
  gd_longitude : R;
  gd_altitude : R
}.

(** The error text of [_extract_gps_data]. *)
Definition missing_gps_message : string :=
  "Datos GPS no disponibles en telemetría".

(** Python's [not v] on the result of [dict.get]: true on [None] and on a
    zero number. *)
Definition py_not (v : option R) : bool :=
  match v with
  | None => true
  | Some x => if Req_dec_T x 0 then true else false
  end.

(** [_extract_gps_data]. *)
Definition _extract_gps_data (drone_telemetry : Telemetry) : string + GpsData :=
  let gps := default (mkGps None None) (gps drone_telemetry) in
  let latitude := gps_latitude gps in
  let longitude := gps_longitude gps in
  if py_not latitude || py_not longitude
  then inl missing_gps_message
  else inr {| gd_latitude := default 0 latitude;
              gd_longitude := default 0 longitude;
              gd_altitude := default 0 (tel_altitude drone_telemetry) |}.

(** The dictionary built by [_perform_correlation] and completed by
    [_finalize_correlation_result]. *)
Inductive Status := high_confidence | low_confidence.

Record CorrelationResult := mkCorrelationResult {
  original_coordinates : R * R;
  corrected_coordinates : R * R;
  correlation_confidence : R;
  coverage_radius_meters : R;
  corr_timestamp : R;
  status : Status
}.

(** [_perform_correlation] followed by [_finalize_correlation_result]. *)
Definition _perform_and_finalize (gps_data : GpsData)
    (confidence_threshold now : R) : CorrelationResult :=
  let coverage_radius := gd_altitude gps_data * 0.5 in
  let correlation_confidence := 0.85 in
  {| original_coordinates := (gd_latitude gps_data, gd_longitude gps_data);
     corrected_coordinates :=
       (gd_latitude gps_data + 0.0001, gd_longitude gps_data - 0.0002);
     correlation_confidence := correlation_confidence;
     coverage_radius_meters := coverage_radius;
     corr_timestamp := now;
     status := if Rle_dec confidence_threshold correlation_confidence
               then high_confidence else low_confidence |}.

(** [correlate_drone_image].  The image bytes and the cached satellite image
    do not influence the result and are left out; with numeric telemetry no
    step after the GPS validation raises, so the [except] branch is not taken. *)
Definition correlate_drone_image (drone_telemetry : Telemetry)
    (confidence_threshold now : R) : string + CorrelationResult :=
  match _extract_gps_data drone_telemetry with
  | inl err => inl err
  | inr gps_data => inr (_perform_and_finalize gps_data confidence_threshold now)
  end.

(** The dictionary returned by [_extract_telemetry_data]. *)
Record TelemetryData := mkTelemetryData {
  td_latitude : R;
  td_longitude : R;
  td_altitude : R;
  td_yaw : R;
  td_pitch : R;
  td_roll : R
}.

(** [_extract_telemetry_data], with the defaults of its [dict.get] calls. *)
Definition _extract_telemetry_data (drone_telemetry : Telemetry) : TelemetryData :=
  let gps := default (mkGps None None) (gps drone_telemetry) in
  let orientation :=
    default (mkOrientation (Some 0) (Some 0) (Some 0))
      (orientation drone_telemetry) in
  {| td_latitude := default 0 (gps_latitude gps);
     td_longitude := default 0 (gps_longitude gps);
     td_altitude := default 100 (tel_altitude drone_telemetry);
     td_yaw := default 0 (yaw orientation);
     td_pitch := default 0 (pitch orientation);
     td_roll := default 0 (roll orientation) |}.

(** [_apply_rotation]. *)
Definition _apply_rotation (x y yaw_degrees : R) : R * R :=
  let yaw_rad := Np.radians yaw_degrees in
  let x_rotated := x * cos yaw_rad - y * sin yaw_rad in
  let y_rotated := x * sin yaw_rad + y * cos yaw_rad in
  (x_rotated, y_rotated).

(** [_calculate_coordinate_offsets]. *)
Definition _calculate_coordinate_offsets (rotated_coords : R * R)
    (scale_factor : R) : R * R :=
  let '(x_rotated, y_rotated) := rotated_coords in
  let lat_offset := y_rotated * scale_factor * 0.00001 in
  let lng_offset := x_rotated * scale_factor * 0.00001 in
  (lat_offset, lng_offset).

(** The dictionary returned by [_transform_pixel_to_coordinates]. *)
Record RealCoordinates := mkRealCoordinates {
  rc_latitude : R;
  rc_longitude : R;
  rc_altitude : R;
  accuracy_meters : R
}.

(** [_transform_pixel_to_coordinates]. *)
Definition _transform_pixel_to_coordinates (pixel_coords : R * R)
    (telemetry_data : TelemetryData) : RealCoordinates :=
  let '(x, y) := pixel_coords in
  let scale_factor := td_altitude telemetry_data / 1000 in
  let rotated_coords := _apply_rotation x y (td_yaw telemetry_data) in
  let '(lat_offset, lng_offset) :=
    _calculate_coordinate_offsets rotated_coords scale_factor in
  let target_latitude := td_latitude telemetry_data - lat_offset in
  let target_longitude := td_longitude telemetry_data + lng_offset in
  {| rc_latitude := target_latitude;
     rc_longitude := target_longitude;
     rc_altitude := td_altitude telemetry_data;
     accuracy_meters := scale_factor * 10 |}.

(** [calculate_real_coordinates]. *)
Definition calculate_real_coordinates (pixel_coords : R * R)
    (drone_telemetry : Telemetry) : RealCoordinates :=
  let telemetry_data := _extract_telemetry_data drone_telemetry in
  _transform_pixel_to_coordinates pixel_coords telemetry_data.

End GeoCorrelator.

(** ** The triangulation methods of [GeoService] *)

Module GeoService.

(** [observation_params], with numeric values; an absent key is [None]. *)
Record ObservationParams := mkObservationParams {
  p_target_id : option string;
  p_target_bearing : option R;
  p_target_elevation : option R;
  p_confidence : option R
}.

(** The dictionary returned by [add_observation]: the success dictionary or
    [{'success': False, 'error': ...}]. *)
Inductive AddObservationResult :=
| AddSuccess (observation_id : string) (total_observations : nat)
    (can_calculate : bool)
| AddFailure (error : string).

(** [_get_mock_drone_position]. *)
Definition _get_mock_drone_position : DronePosition :=
  mkDronePosition 40.416775 (-3.703790) 50.

Definition module_unavailable_message : string :=
  "Módulo de triangulación no disponible".

(** [add_observation].  A missing required key raises [KeyError], which the
    [except] branch turns into the error text [str(e)], the quoted key;
    [float] is the identity on numbers.  [is_mock_triangulation] is the flag
    set by the constructor, [now] the clock read by the engine. *)
Definition add_observation (is_mock_triangulation : bool)
    (observation_params : ObservationParams) (now : R)
    : M AddObservationResult :=
  match p_target_id observation_params with
  | None => mret (AddFailure "'target_id'")
  | Some target_id =>
      match p_target_bearing observation_params with
      | None => mret (AddFailure "'target_bearing'")
      | Some target_bearing =>
          let target_elevation :=
            default 0 (p_target_elevation observation_params) in
          let confidence := default 1 (p_confidence observation_params) in
          if is_mock_triangulation
          then mret (AddFailure module_unavailable_message)
          else
            let drone_position := _get_mock_drone_position in
            observation_id ←
              GeoTriangulation.add_observation target_id drone_position
                target_bearing target_elevation confidence now;
            all ← get_observations;
            let obs_count := length (default [] (all !! target_id)) in
            mret (AddSuccess observation_id obs_count (2 <=? obs_count)%nat)
      end
  end.

(** [_add_automatic_observations]; [now1] and [now2] are the clock values
    read by the two [add_observation] calls. *)
Definition _add_automatic_observations (target_id : string) (now1 now2 : R)
    : M unit :=
  let drone_position_1 := mkDronePosition 40.416775 (-3.703790) 50 in
  let drone_position_2 :=
    mkDronePosition (40.416775 + 0.001) (-3.703790 + 0.001) 60 in
  GeoTriangulation.add_observation target_id drone_position_1 45 15 0.9 now1;;
  GeoTriangulation.add_observation target_id drone_position_2 50 12 0.85 now2;;
  mret tt.

(** The success dictionary of [_calculate_position_real] (its ['method'] is
    the constant ['real_triangulation']). *)
Record ServicePosition := mkServicePosition {
  sp_latitude : R;
  sp_longitude : R;
  sp_altitude : R;
  sp_precision : PrecisionMetrics;
  sp_observations_count : nat;
  sp_timestamp : R
}.

Inductive PositionResult :=
| PositionSuccess (r : ServicePosition)
| PositionFailure (error : string).

(** [_calculate_position_real]. *)
Definition _calculate_position_real (target_id : string) (now1 now2 now : R)
    : M PositionResult :=
  all ← get_observations;
  (if match all !! target_id with
      | None => true
      | Some l => (length l <? 2)%nat
      end
   then _add_automatic_observations target_id now1 now2
   else mret tt);;
  result ← GeoTriangulation.calculate_position target_id now;
  match result with
  | CalcError e => mret (PositionFailure (error_message e))
  | CalcOk r =>
      mret (PositionSuccess
              {| sp_latitude := est_latitude r;
                 sp_longitude := est_longitude r;
                 sp_altitude := est_altitude r;
                 sp_precision := precision r;
                 sp_observations_count := observations_count r;
                 sp_timestamp := est_timestamp r |})
  end.

End GeoService.

(** The success dictionary that [_calculate_position_real] builds from a
    result of the engine. *)
Definition service_position_of (r : PositionEstimate)
    : GeoService.ServicePosition :=
  GeoService.mkServicePosition (est_latitude r) (est_longitude r)
    (est_altitude r) (precision r) (observations_count r) (est_timestamp r).

(** The fields of a result that do not depend on the clock. *)
Definition same_estimate (r1 r2 : CalcResult) : Prop :=
  match r1, r2 with
  | CalcError e1, CalcError e2 => e1 = e2
  | CalcOk p1, CalcOk p2 =>
      est_target_id p1 = est_target_id p2 /\
      est_latitude p1 = est_latitude p2 /\
      est_longitude p1 = est_longitude p2 /\
      est_altitude p1 = est_altitude p2 /\
      precision p1 = precision p2 /\
      observations_count p1 = observations_count p2
  | _, _ => False
  end.

(** The observations stored for a target, none when it has no bucket. *)
Abbreviation stored_of s t := (default [] (s !! t)).

(** The ids of the observations stored for a target are those of the
    positions they were appended at. *)
Definition ids_by_index (s : Engine) : Prop :=
  forall t l, s !! t = Some l ->
    map id l = map (observation_id_of t) (seq 0 (length l)).

(** ** Scenarios *)

(** Scenario A: one pose, two sightings. *)
Definition scenario_a_pose : DronePosition := mkDronePosition 40 (-74) 100.
Definition scenario_a_first : Sighting := mkSighting scenario_a_pose 0 30 1.
Definition scenario_a_second : Sighting := mkSighting scenario_a_pose 90 30 1.

(** The engine after [create_target] and the two [add_observation] calls of
    scenario A. *)
Definition scenario_a_target : string := "target_0a1b2c3d".
Definition scenario_a_calls : list Call :=
  add_sightings scenario_a_target [(scenario_a_first, 10); (scenario_a_second, 11)].
Definition scenario_a_engine : Engine :=
  run_calls (CreateTarget "0a1b2c3d" :: scenario_a_calls) ∅.


(** Half a unit of the fifth decimal, in degrees: the tolerance of the
    coordinates of scenario A. *)
Definition coordinate_tolerance : R := 0.000005.

(** An observation is added, the target is reset, an observation is added. *)
Definition add_reset_add : list Call :=
  [AddObservation "t" scenario_a_pose 0 30 1 10;
   ResetTarget "t";
   AddObservation "t" scenario_a_pose 90 30 1 11].

(** * Properties *)

(** ** Running the monad *)

Ltac run_monad :=
  unfold mbind, M_bind, mret, M_ret, get_observations, put_observations in *;
  cbn [fst snd] in *.

Lemma validate_observations_run (t : string) (s : Engine) :
  _validate_observations t s =
  (match s !! t with
   | None => Some (NotFound t)
   | Some l => if (length l <? 2)%nat then Some (InsufficientData (length l))
               else None
   end, s).
Proof.
  unfold _validate_observations; run_monad.
  destruct (s !! t) as [l|]; [|reflexivity].
  destruct (length l <? 2)%nat; reflexivity.
Qed.

Lemma calculate_position_run (t : string) (now : R) (s : Engine) :
  calculate_position t now s =
  (match s !! t with
   | None => CalcError (NotFound t)
   | Some l => if (length l <? 2)%nat then CalcError (InsufficientData (length l))
               else CalcOk (position_of t l now)
   end, s).
Proof.
  unfold calculate_position.
  unfold mbind at 1, M_bind at 1.
  rewrite validate_observations_run.
  destruct (s !! t) as [l|] eqn:Hl; [|reflexivity].
  destruct (length l <? 2)%nat; [reflexivity|].
  run_monad. rewrite Hl. reflexivity.
Qed.

(** ** Validation and error results *)

(** C3 (as amended).  [calculate_position] answers [NotFound] exactly when
    the target id is not a key of the engine, [InsufficientData] (with the
    count) exactly when the key holds zero or one observation, and the
    computed estimate, with no error, exactly when it holds two or more. *)
Theorem calculate_position_outcome (t : string) (now : R) (s : Engine) :
  (calculate_position t now s).1 =
  match s !! t with
  | None => CalcError (NotFound t)
  | Some l =>
      match l with
      | [] | [_] => CalcError (InsufficientData (length l))
      | _ :: _ :: _ => CalcOk (position_of t l now)
      end
  end.
Proof.
  rewrite calculate_position_run. cbn [fst].
  destruct (s !! t) as [[|o1 [|o2 l]]|]; reflexivity.
Qed.

(** C3 (as stated) fails: a target made by [create_target] has no
    observations, and [calculate_position] answers [InsufficientData 0],
    not [NotFound]. *)
Lemma created_target_is_insufficient_data :
  let '(t, s) := create_target "0a1b2c3d" ∅ in
  default [] (s !! t) = [] /\
  (calculate_position t 0 s).1 = CalcError (InsufficientData 0) /\
  (calculate_position t 0 s).1 <> CalcError (NotFound t).
Proof.
  unfold create_target; run_monad.
  rewrite calculate_position_run, lookup_insert_eq. cbn.
  split; [reflexivity|]. split; [reflexivity|]. discriminate.
Qed.

(** ** Frame: [calculate_position] only reads the engine *)

(** C10.  Whatever it returns, [calculate_position] leaves the map from
    targets to observations as it found it; a second call therefore sees the
    same observations and returns the same position. *)
Theorem calculate_position_frame (t : string) (now now' : R) (s : Engine) :
  (calculate_position t now s).2 = s /\
  ((r1 ← calculate_position t now;
    r2 ← calculate_position t now';
    mret (r1, r2)) s).2 = s /\
  (let '(r1, r2) :=
     ((r1 ← calculate_position t now;
       r2 ← calculate_position t now';
       mret (r1, r2)) s).1 in
   same_estimate r1 r2).
Proof.
  split; [rewrite calculate_position_run; reflexivity|].
  unfold mbind, M_bind. rewrite !calculate_position_run.
  destruct (s !! t) as [l|]; [destruct (length l <? 2)%nat|];
    cbn [fst snd mret M_ret]; (split; [reflexivity|]); try exact eq_refl.
  unfold same_estimate, position_of, _build_result; cbn.
  repeat split.
Qed.

(** ** Distance estimation *)

(** C5.  The distance computed for an observation is [altitude / sin
    elevation] when the elevation is positive and the fallback 1000
    otherwise; what [_estimate_distance] returns is that value cut at 10000,
    so it is 1000 whenever the elevation is not positive and never exceeds
    10000. *)
Theorem estimate_distance_spec (altitude elevation : R) :
  (0 < elevation ->
   distance_before_clamp altitude elevation = altitude / sin elevation) /\
  (elevation <= 0 ->
   distance_before_clamp altitude elevation = 1000 /\
   _estimate_distance altitude elevation = 1000) /\
  _estimate_distance altitude elevation =
    Rmin (distance_before_clamp altitude elevation) 10000 /\
  (distance_before_clamp altitude elevation <= 10000 ->
   _estimate_distance altitude elevation =
     distance_before_clamp altitude elevation) /\
  _estimate_distance altitude elevation <= 10000.
Proof.
  unfold _estimate_distance, distance_before_clamp.
  destruct (Rlt_dec 0 elevation) as [Hpos|Hneg].
  - split; [reflexivity|]. split; [intros; lra|]. split; [reflexivity|].
    split; [intros; apply Rmin_left; assumption | apply Rmin_r].
  - split; [intros; lra|]. split.
    + intros _. split; [reflexivity | apply Rmin_left; lra].
    + split; [reflexivity|].
      split; [intros; apply Rmin_left; assumption | apply Rmin_r].
Qed.

Lemma estimate_distance_spec_witness :
  0 < PI / 6 /\
  distance_before_clamp 100 (PI / 6) = 100 / sin (PI / 6) /\
  _estimate_distance 100 (PI / 6) = distance_before_clamp 100 (PI / 6) /\
  _estimate_distance 100 (-1) = 1000.
Proof.
  pose proof PI_RGT_0 as Hpi.
  destruct (estimate_distance_spec 100 (PI / 6)) as (H1 & _ & _ & H4 & _).
  destruct (estimate_distance_spec 100 (-1)) as (_ & H2 & _).
  split; [lra|]. split; [apply H1; lra|]. split.
  - apply H4. rewrite H1 by lra. rewrite sin_PI6. lra.
  - apply H2. lra.
Defined.

(** ** Weight normalisation *)

Lemma sum_scale (k : R) (l : list R) :
  Np.sum (map (fun w => w / k) l) = Np.sum l / k.
Proof.
  unfold Np.sum. induction l as [|w l IH]; cbn.
  - unfold Rdiv. ring.
  - fold (map (fun w => w / k) l). rewrite IH. unfold Rdiv. ring.
Qed.

(** C8 (as amended).  When the confidences do not sum to zero, the weights
    divided by their sum add up to 1; a single such weight becomes 1. *)
Theorem normalized_weights_sum (ws : list R) :
  Np.sum ws <> 0 ->
  Np.sum (normalized_weights ws) = 1 /\
  (forall w, ws = [w] -> normalized_weights ws = [1]).
Proof.
  intros Hsum. split.
  - unfold normalized_weights. rewrite sum_scale. field. exact Hsum.
  - intros w ->. unfold normalized_weights, Np.sum in *. cbn in *.
    f_equal. field. lra.
Qed.

Lemma normalized_weights_sum_witness :
  Np.sum [0.9; 0.85] <> 0 /\ Np.sum (normalized_weights [0.9; 0.85]) = 1.
Proof.
  assert (H : Np.sum [0.9; 0.85] <> 0) by (unfold Np.sum; cbn; lra).
  split; [exact H | exact (proj1 (normalized_weights_sum [0.9; 0.85] H))].
Defined.

(** C8 (as stated) fails: two observations of confidence 0 have weights
    whose sum is 0, the quotients are not numbers that add up to 1, and a
    single weight 0 does not normalise to 1. *)
Lemma zero_weights_do_not_normalize :
  Np.sum (normalized_weights [0; 0]) <> 1 /\ normalized_weights [0] <> [1].
Proof.
  unfold normalized_weights, Np.sum; cbn. unfold Rdiv.
  rewrite !Rmult_0_l. split; [lra|].
  intros H. injection H as H. lra.
Qed.

(** ** The GPS validation of [correlate_drone_image] *)

(** C6.  A pose on the equator carries both coordinates, and
    [correlate_drone_image] still answers with the missing-GPS error: the
    validation tests the truth value of the coordinate, and 0 is false. *)
Theorem correlate_rejects_zero_coordinate (threshold now : R) :
  let telemetry :=
    GeoCorrelator.mkTelemetry
      (Some (GeoCorrelator.mkGps (Some 0) (Some (-74)))) (Some 100) None in
  GeoCorrelator.correlate_drone_image telemetry threshold now =
  inl GeoCorrelator.missing_gps_message.
Proof.
  cbn. unfold GeoCorrelator.correlate_drone_image,
    GeoCorrelator._extract_gps_data, GeoCorrelator.py_not; cbn.
  destruct (Req_dec_T 0 0) as [_|Hne]; [reflexivity | contradiction].
Qed.

(** ** Pixel mapping without rotation *)

Lemma extract_telemetry_data_fields (g : option GeoCorrelator.Gps)
    (alt : option R) (ori : option GeoCorrelator.Orientation) :
  GeoCorrelator._extract_telemetry_data (GeoCorrelator.mkTelemetry g alt ori)
  = GeoCorrelator.mkTelemetryData
      (match g with
       | Some g' => default 0 (GeoCorrelator.gps_latitude g')
       | None => 0
       end)
      (match g with
       | Some g' => default 0 (GeoCorrelator.gps_longitude g')
       | None => 0
       end)
      (default 100 alt)
      (match ori with
       | Some o => default 0 (GeoCorrelator.yaw o)
       | None => 0
       end)
      (match ori with
       | Some o => default 0 (GeoCorrelator.pitch o)
       | None => 0
       end)
      (match ori with
       | Some o => default 0 (GeoCorrelator.roll o)
       | None => 0
       end).
Proof. destruct g, ori; reflexivity. Qed.

Lemma transform_yaw_zero (x y lat lon alt pitch roll : R) :
  GeoCorrelator._transform_pixel_to_coordinates (x, y)
    (GeoCorrelator.mkTelemetryData lat lon alt 0 pitch roll)
  = GeoCorrelator.mkRealCoordinates
      (lat - y * (alt / 1000) * 0.00001)
      (lon + x * (alt / 1000) * 0.00001)
      alt
      (alt / 1000 * 10).
Proof.
  unfold GeoCorrelator._transform_pixel_to_coordinates,
    GeoCorrelator._calculate_coordinate_offsets,
    GeoCorrelator._apply_rotation, Np.radians. cbn.
  rewrite Rmult_0_l, cos_0, sin_0. f_equal; ring.
Qed.

(** C7.  For a telemetry dictionary whose yaw is 0 (given as 0, or absent),
    the rotation leaves the pixel offset as it is, and
    [calculate_real_coordinates] returns the drone's latitude moved by
    [y * (altitude / 1000) * 1e-5] to the south, the drone's longitude moved
    by [x * (altitude / 1000) * 1e-5] to the east, the altitude, and the
    accuracy [(altitude / 1000) * 10].  The drone's latitude, longitude and
    altitude are those of the dictionary's ["gps"] and ["altitude"] entries
    (0, 0 and 100 for an absent entry). *)
Theorem real_coordinates_yaw_zero (x y : R) (g : option GeoCorrelator.Gps)
    (alt : option R) (ori : option GeoCorrelator.Orientation) :
  match ori with
  | Some o => default 0 (GeoCorrelator.yaw o)
  | None => 0
  end = 0 ->
  let drone_lat :=
    match g with
    | Some g' => default 0 (GeoCorrelator.gps_latitude g')
    | None => 0
    end in
  let drone_lon :=
    match g with
    | Some g' => default 0 (GeoCorrelator.gps_longitude g')
    | None => 0
    end in
  let altitude := default 100 alt in
  GeoCorrelator._apply_rotation x y 0 = (x, y) /\
  GeoCorrelator.calculate_real_coordinates (x, y)
    (GeoCorrelator.mkTelemetry g alt ori)
  = GeoCorrelator.mkRealCoordinates
      (drone_lat - y * (altitude / 1000) * 0.00001)
      (drone_lon + x * (altitude / 1000) * 0.00001)
      altitude
      (altitude / 1000 * 10).
Proof.
  intros Hyaw drone_lat drone_lon altitude. split.
  - unfold GeoCorrelator._apply_rotation, Np.radians.
    rewrite Rmult_0_l, cos_0, sin_0. f_equal; ring.
  - unfold GeoCorrelator.calculate_real_coordinates.
    rewrite extract_telemetry_data_fields, Hyaw.
    apply transform_yaw_zero.
Qed.

Lemma real_coordinates_yaw_zero_witness :
  GeoCorrelator.calculate_real_coordinates (100, 50)
    (GeoCorrelator.mkTelemetry
       (Some (GeoCorrelator.mkGps (Some 40.7128) (Some (-74.0060))))
       (Some 120)
       (Some (GeoCorrelator.mkOrientation (Some 0) (Some (-10)) (Some 5))))
  = GeoCorrelator.mkRealCoordinates
      (40.7128 - 50 * (120 / 1000) * 0.00001)
      (-74.0060 + 100 * (120 / 1000) * 0.00001)
      120
      (120 / 1000 * 10).
Proof.
  exact (proj2 (real_coordinates_yaw_zero 100 50
                  (Some (GeoCorrelator.mkGps (Some 40.7128) (Some (-74.0060))))
                  (Some 120)
                  (Some (GeoCorrelator.mkOrientation (Some 0) (Some (-10))
                           (Some 5)))
                  eq_refl)).
Defined.

(** ** Observation identifiers *)

Lemma add_observation_run (t : string) (pos : DronePosition)
    (b e w now : R) (s : Engine) :
  add_observation t pos b e w now s =
  (observation_id_of t (length (stored_of s t)),
   <[t := stored_of s t
          ++ [mkObservation (observation_id_of t (length (stored_of s t)))
                pos b e w now]]> s).
Proof.
  unfold add_observation; run_monad.
  destruct (s !! t) as [l|] eqn:Hl; cbn.
  - rewrite Hl. reflexivity.
  - rewrite lookup_insert_eq. cbn. rewrite insert_insert_eq. reflexivity.
Qed.

Lemma reset_target_run (t : string) (s : Engine) :
  reset_target t s = (bool_decide (is_Some (s !! t)), delete t s).
Proof.
  unfold reset_target; run_monad.
  destruct (s !! t) as [l|] eqn:Hl; cbn; [reflexivity|].
  rewrite delete_id by assumption. reflexivity.
Qed.

Lemma create_target_run (h : string) (s : Engine) :
  create_target h s = ("target_" +:+ h, <["target_" +:+ h := []]> s).
Proof. reflexivity. Qed.

Lemma run_call_other (c : Call) (t : string) (s : Engine) :
  call_target c <> t -> (run_call c s).2 !! t = s !! t.
Proof.
  intros Hne. destruct c as [t' pos b e w now|t'|h]; cbn in Hne;
    unfold run_call, mbind, M_bind, mret, M_ret.
  - rewrite add_observation_run. cbn. apply lookup_insert_ne. exact Hne.
  - rewrite reset_target_run. cbn. apply lookup_delete_ne. exact Hne.
  - rewrite create_target_run. cbn. apply lookup_insert_ne. exact Hne.
Qed.

Lemma observation_id_of_inj (t : string) :
  Inj (=) (=) (observation_id_of t).
Proof.
  intros n m H. unfold observation_id_of in H.
  apply (inj (String.app t)) in H.
  apply (inj (String.app "_")) in H.
  apply (inj pretty) in H. exact H.
Qed.

Lemma ids_by_index_empty : ids_by_index ∅.
Proof. intros t l H. rewrite lookup_empty in H. discriminate. Qed.

Lemma ids_by_index_step (c : Call) (s : Engine) :
  ids_by_index s -> ids_by_index (run_call c s).2.
Proof.
  intros Hinv t l Hl.
  destruct (decide (call_target c = t)) as [Heq|Hne].
  2:{ rewrite run_call_other in Hl by assumption. apply Hinv, Hl. }
  destruct c as [t' pos b e w now|t'|h]; cbn in Heq; subst;
    unfold run_call, mbind, M_bind, mret, M_ret in Hl.
  - rewrite add_observation_run in Hl. cbn in Hl.
    rewrite lookup_insert_eq in Hl. injection Hl as <-.
    rewrite map_app, length_app, seq_app, map_app. cbn.
    f_equal. destruct (s !! t) as [l0|] eqn:Hl0; cbn; [|reflexivity].
    apply Hinv, Hl0.
  - rewrite reset_target_run in Hl. cbn in Hl.
    rewrite lookup_delete_eq in Hl. discriminate.
  - rewrite create_target_run in Hl. cbn in Hl.
    rewrite lookup_insert_eq in Hl. injection Hl as <-. reflexivity.
Qed.

Lemma ids_by_index_run (cs : list Call) (s : Engine) :
  ids_by_index s -> ids_by_index (run_calls cs s).
Proof.
  revert s. induction cs as [|c cs IH]; intros s Hinv; cbn; [exact Hinv|].
  apply IH, ids_by_index_step, Hinv.
Qed.

Lemma returned_ids_seq (t : string) (cs : list Call) :
  keeps_target t cs = true ->
  forall s : Engine,
    returned_ids t cs s =
    map (observation_id_of t)
        (seq (length (stored_of s t)) (length (returned_ids t cs s))).
Proof.
  induction cs as [|c cs IH]; intros Hkeep s; [reflexivity|].
  cbn in Hkeep. apply andb_prop in Hkeep as [Hc Hcs].
  specialize (IH Hcs). cbn [returned_ids].
  destruct (String.eqb_spec (call_target c) t) as [Heq|Hne].
  - destruct c as [t' pos b e w now|t'|h]; cbn in Heq, Hc; subst;
      try discriminate Hc.
    unfold run_call, mbind, M_bind, mret, M_ret.
    rewrite add_observation_run. cbn [length seq map].
    f_equal. rewrite IH at 1. rewrite lookup_insert_eq.
    cbn [default from_option Datatypes.id].
    rewrite length_app, Nat.add_1_r. reflexivity.
  - pose proof (run_call_other c t s Hne) as Hsame.
    destruct (run_call c s) as [r s'] eqn:Hrun. cbn in Hsame.
    rewrite <- Hsame. destruct r; apply IH.
Qed.

(** C9 (as amended).  After any sequence of calls, the ids that
    [add_observation] returns for a target during a further sequence of
    calls that neither resets nor re-creates that target are distinct from
    one another and from the ids of the observations already stored for
    it. *)
Theorem returned_ids_unique (pre cs : list Call) (t : string) :
  keeps_target t cs = true ->
  NoDup (map id (stored_of (run_calls pre ∅) t)
         ++ returned_ids t cs (run_calls pre ∅)).
Proof.
  intros Hkeep. set (s := run_calls pre ∅).
  assert (Hinv : ids_by_index s) by apply ids_by_index_run, ids_by_index_empty.
  rewrite (returned_ids_seq t cs Hkeep s).
  assert (Hstored : map id (stored_of s t)
                    = map (observation_id_of t) (seq 0 (length (stored_of s t)))).
  { destruct (s !! t) as [l|] eqn:Hl; cbn; [apply Hinv, Hl | reflexivity]. }
  rewrite Hstored, <- map_app, <- seq_app.
  apply (@NoDup_fmap_2 _ _ _ (observation_id_of_inj t)), NoDup_seq.
Qed.

Lemma returned_ids_unique_witness :
  keeps_target scenario_a_target scenario_a_calls = true /\
  NoDup (map id (stored_of (run_calls [CreateTarget "0a1b2c3d"] ∅) scenario_a_target)
         ++ returned_ids scenario_a_target scenario_a_calls
              (run_calls [CreateTarget "0a1b2c3d"] ∅)).
Proof.
  assert (H : keeps_target scenario_a_target scenario_a_calls = true)
    by reflexivity.
  split; [exact H|].
  exact (returned_ids_unique [CreateTarget "0a1b2c3d"] scenario_a_calls
           scenario_a_target H).
Defined.

(** C9 (as stated) fails: after a reset the index starts again, and the
    second [add_observation] returns the id the first one returned. *)
Lemma ids_repeat_after_reset :
  returned_ids "t" add_reset_add ∅
  = [observation_id_of "t" 0; observation_id_of "t" 0] /\
  ~ NoDup (returned_ids "t" add_reset_add ∅).
Proof.
  assert (H : returned_ids "t" add_reset_add ∅
              = [observation_id_of "t" 0; observation_id_of "t" 0]).
  { unfold add_reset_add. cbn [returned_ids].
    unfold run_call, mbind, M_bind, mret, M_ret.
    rewrite add_observation_run. cbn [call_target].
    rewrite reset_target_run, add_observation_run.
    rewrite lookup_empty, delete_insert_eq, delete_empty, lookup_empty.
    reflexivity. }
  split; [exact H|].
  rewrite H. intros Hnd. apply NoDup_cons_1_1 in Hnd.
  apply Hnd. left.
Qed.

(** ** Order independence *)

Lemma sum_perm (l l' : list R) : Permutation l l' -> Np.sum l = Np.sum l'.
Proof.
  unfold Np.sum. induction 1 as [|x l l' _ IH|x y l|l l' l'' _ IH1 _ IH2]; cbn.
  - reflexivity.
  - rewrite IH. reflexivity.
  - ring.
  - rewrite IH1. exact IH2.
Qed.

Lemma foldr_Rmax_in_ub (x : R) (t : list R) :
  In (foldr Rmax x t) (x :: t) /\
  Forall (fun y => y <= foldr Rmax x t) (x :: t).
Proof.
  induction t as [|y t [Hin Hub]]; cbn.
  - split; [left; reflexivity|]. constructor; [lra | constructor].
  - set (m := foldr Rmax x t) in *. split.
    + destruct (Rle_dec y m) as [Hle|Hgt];
        [rewrite Rmax_right by exact Hle
        |rewrite Rmax_left by lra; right; left; reflexivity].
      destruct Hin as [Hin|Hin]; [left; exact Hin | right; right; exact Hin].
    + inversion Hub as [|? ? Hx Ht]; subst.
      constructor; [eapply Rle_trans; [exact Hx | apply Rmax_r]|].
      constructor; [apply Rmax_l|].
      eapply Forall_impl; [exact Ht|].
      intros z Hz. cbn in Hz. eapply Rle_trans; [exact Hz | apply Rmax_r].
Qed.

Lemma max_in_ub (l : list R) :
  l <> [] -> In (Np.max l) l /\ Forall (fun y => y <= Np.max l) l.
Proof.
  destruct l as [|x t]; [congruence|]. intros _. apply foldr_Rmax_in_ub.
Qed.

Lemma max_perm (l l' : list R) : Permutation l l' -> Np.max l = Np.max l'.
Proof.
  intros Hp. destruct l as [|x t].
  - apply Permutation_nil in Hp. subst. reflexivity.
  - assert (Hl' : l' <> []).
    { intros ->. apply Permutation_sym, Permutation_nil in Hp. discriminate. }
    destruct (max_in_ub (x :: t)) as [Hin Hub]; [discriminate|].
    destruct (max_in_ub l' Hl') as [Hin' Hub'].
    rewrite Forall_forall in Hub, Hub'.
    apply Rle_antisym.
    + apply Hub', list_elem_of_In.
      apply (Permutation_in _ Hp), Hin.
    + apply Hub, list_elem_of_In.
      apply (Permutation_in _ (Permutation_sym Hp)), Hin'.
Qed.

Lemma zip_with_map_map {A} (f : R -> R -> R) (g h : A -> R) (l : list A) :
  zip_with f (map g l) (map h l) = map (fun a => f (g a) (h a)) l.
Proof. induction l as [|a l IH]; cbn; [reflexivity | rewrite IH; reflexivity]. Qed.

Lemma estimated_points_map (obs : list Observation) :
  _calculate_estimated_points (_extract_observation_data obs)
  = map sighting_point (map sighting_of obs).
Proof.
  unfold _calculate_estimated_points, _extract_observation_data; cbn.
  induction obs as [|o obs IH]; cbn; [reflexivity|].
  f_equal. exact IH.
Qed.

Lemma weights_map (obs : list Observation) :
  weights (_extract_observation_data obs)
  = map s_confidence (map sighting_of obs).
Proof. cbn. rewrite map_map. reflexivity. Qed.

Lemma weighted_average_perm (g g' : list Sighting) :
  Permutation g g' ->
  _calculate_weighted_average (map sighting_point g) (map s_confidence g)
  = _calculate_weighted_average (map sighting_point g') (map s_confidence g').
Proof.
  intros Hp.
  unfold _calculate_weighted_average, average_axis0, normalized_weights.
  rewrite <- (sum_perm _ _ (Permutation_map s_confidence Hp)).
  set (k := Np.sum (map s_confidence g)).
  rewrite !map_map, !zip_with_map_map.
  f_equal; (f_equal; [|apply sum_perm, Permutation_map, Hp]);
    apply sum_perm, Permutation_map, Hp.
Qed.

Lemma precision_metrics_perm (p p' : list (R * R)) (c : R * R) (n : nat) :
  Permutation p p' ->
  _calculate_precision_metrics p c n = _calculate_precision_metrics p' c n.
Proof.
  intros Hp. unfold _calculate_precision_metrics.
  assert (Hd : Permutation (distances_from p c) (distances_from p' c))
    by (apply Permutation_map, Hp).
  unfold Np.average.
  rewrite (sum_perm _ _ Hd), (max_perm _ _ Hd), (Permutation_length Hd).
  reflexivity.
Qed.

Lemma position_of_perm (t : string) (obs obs' : list Observation)
    (now now' : R) :
  Permutation (map sighting_of obs) (map sighting_of obs') ->
  same_estimate (CalcOk (position_of t obs now))
                (CalcOk (position_of t obs' now')).
Proof.
  intros Hp.
  assert (Hlen : length obs = length obs').
  { apply Permutation_length in Hp. rewrite !length_map in Hp. exact Hp. }
  unfold same_estimate, position_of, _build_result.
  cbn [est_target_id est_latitude est_longitude est_altitude precision
       observations_count].
  rewrite !estimated_points_map, !weights_map, <- Hlen.
  rewrite (weighted_average_perm _ _ Hp).
  rewrite (precision_metrics_perm _ _ _ _ (Permutation_map sighting_point Hp)).
  repeat split.
Qed.

Lemma run_add_sightings_stored (t : string) (l : list (Sighting * R)) :
  forall s : Engine,
    map sighting_of (stored_of (run_calls (add_sightings t l) s) t)
    = map sighting_of (stored_of s t) ++ map fst l.
Proof.
  induction l as [|[g now] l IH]; intros s; cbn [add_sightings map run_calls].
  - rewrite app_nil_r. reflexivity.
  - fold (add_sightings t l). rewrite IH.
    unfold run_call, mbind, M_bind, mret, M_ret.
    rewrite add_observation_run. cbn [snd fst].
    rewrite lookup_insert_eq. cbn [default from_option Datatypes.id].
    rewrite map_app, <- app_assoc. destruct g; reflexivity.
Qed.

Lemma run_add_sightings_keeps (t : string) (l : list (Sighting * R)) :
  forall s : Engine,
    is_Some (s !! t) -> is_Some (run_calls (add_sightings t l) s !! t).
Proof.
  induction l as [|[g now] l IH]; intros s Hs; cbn [add_sightings map run_calls];
    [exact Hs|].
  apply IH. unfold run_call, mbind, M_bind, mret, M_ret.
  rewrite add_observation_run. cbn [snd]. rewrite lookup_insert_eq. eauto.
Qed.

Lemma run_add_sightings_some (t : string) (l : list (Sighting * R)) (s : Engine) :
  l <> [] -> is_Some (run_calls (add_sightings t l) s !! t).
Proof.
  destruct l as [|[g now] l]; [congruence|]. intros _.
  cbn [add_sightings map run_calls]. apply run_add_sightings_keeps.
  unfold run_call, mbind, M_bind, mret, M_ret.
  rewrite add_observation_run. cbn [snd]. rewrite lookup_insert_eq. eauto.
Qed.

(** C2.  Adding the same sightings to a fresh target in two different
    orders gives the same result of [calculate_position]: the same latitude,
    longitude, precision metrics and observation count, or the same error.
    Over the real numbers the two results are equal, not only close. *)
Theorem calculate_position_order_independent (t : string)
    (l1 l2 : list (Sighting * R)) (s : Engine) (now1 now2 : R) :
  stored_of s t = [] ->
  Permutation (map fst l1) (map fst l2) ->
  same_estimate
    (calculate_position t now1 (run_calls (add_sightings t l1) s)).1
    (calculate_position t now2 (run_calls (add_sightings t l2) s)).1.
Proof.
  intros Hfresh Hp.
  rewrite !calculate_position_run. cbn [fst].
  destruct l1 as [|x1 l1].
  - apply Permutation_nil, map_eq_nil in Hp. subst l2. cbn [add_sightings map run_calls].
    destruct (s !! t) as [l|]; [|exact eq_refl].
    cbn in Hfresh. subst l. exact eq_refl.
  - assert (Hl2 : l2 <> []).
    { intros ->. apply Permutation_sym, Permutation_nil in Hp. discriminate. }
    pose proof (run_add_sightings_stored t (x1 :: l1) s) as H1.
    pose proof (run_add_sightings_stored t l2 s) as H2.
    destruct (run_add_sightings_some t (x1 :: l1) s) as [obs1 E1]; [discriminate|].
    destruct (run_add_sightings_some t l2 s Hl2) as [obs2 E2].
    rewrite E1 in H1 |- *. rewrite E2 in H2 |- *.
    rewrite Hfresh in H1, H2. cbn [default from_option Datatypes.id map app] in H1, H2.
    assert (Hobs : Permutation (map sighting_of obs1) (map sighting_of obs2))
      by (rewrite H1, H2; exact Hp).
    assert (Hlen : length obs1 = length obs2).
    { apply Permutation_length in Hobs. rewrite !length_map in Hobs. exact Hobs. }
    rewrite <- Hlen.
    destruct (length obs1 <? 2)%nat; [rewrite Hlen; exact eq_refl|].
    apply position_of_perm, Hobs.
Qed.

Lemma calculate_position_order_independent_witness :
  stored_of (∅ : Engine) "t" = [] /\
  Permutation [scenario_a_first; scenario_a_second]
              [scenario_a_second; scenario_a_first] /\
  same_estimate
    (calculate_position "t" 20
       (run_calls (add_sightings "t" [(scenario_a_first, 10); (scenario_a_second, 11)])
          ∅)).1
    (calculate_position "t" 21
       (run_calls (add_sightings "t" [(scenario_a_second, 12); (scenario_a_first, 13)])
          ∅)).1.
Proof.
  assert (H0 : stored_of (∅ : Engine) "t" = []) by reflexivity.
  assert (Hp : Permutation [scenario_a_first; scenario_a_second]
                           [scenario_a_second; scenario_a_first])
    by apply perm_swap.
  split; [exact H0|]. split; [exact Hp|].
  exact (calculate_position_order_independent "t"
           [(scenario_a_first, 10); (scenario_a_second, 11)]
           [(scenario_a_second, 12); (scenario_a_first, 13)] ∅ 20 21 H0 Hp).
Defined.

(** ** Scenario A *)

Lemma PI_bounds : 3.14159 < PI < 3.1416.
Proof.
  pose proof (PI_2_3_7_ineq 3) as [Hlo Hhi].
  unfold sum_f_R0, tg_alt, PI_2_3_7_tg, Ratan_seq in Hlo, Hhi.
  cbn [Nat.mul Nat.add INR pow] in Hlo, Hhi.
  split; lra.
Qed.

Lemma cos_3x (x : R) : cos (3 * x) = 4 * cos x * cos x * cos x - 3 * cos x.
Proof.
  replace (3 * x) with (2 * x + x) by ring.
  rewrite cos_plus, cos_2a_cos, sin_2a.
  pose proof (sin2_cos2 x) as H. unfold Rsqr in H.
  replace (2 * sin x * cos x * sin x) with (2 * cos x * (sin x * sin x)) by ring.
  replace (sin x * sin x) with (1 - cos x * cos x) by lra.
  ring.
Qed.

Lemma cos_40_bounds : 0.76604 < cos (Np.radians 40) < 0.76605.
Proof.
  unfold Np.radians. set (c := cos _).
  assert (Hcubic : 4 * c * c * c - 3 * c = -1 / 2).
  { subst c. rewrite <- cos_3x. rewrite <- cos_2PI3. f_equal. field. }
  assert (Hhalf : 1 / 2 < c).
  { subst c. rewrite <- cos_PI3. pose proof PI_RGT_0.
    apply cos_decreasing_1; lra. }
  assert (Hone : c <= 1) by (subst c; apply COS_bound).
  split; nra.
Qed.

Lemma estimate_distance_scenario_a : _estimate_distance 100 (Np.radians 30) = 200.
Proof.
  replace (Np.radians 30) with (PI / 6) by (unfold Np.radians; field).
  unfold _estimate_distance, distance_before_clamp.
  pose proof PI6_RGT_0.
  destruct (Rlt_dec 0 (PI / 6)) as [_|Hn]; [|contradiction].
  rewrite sin_PI6. rewrite Rmin_left; lra.
Qed.

Lemma sighting_point_first :
  sighting_point scenario_a_first = (40 + 36000 / 6371000 / PI, -74).
Proof.
  unfold sighting_point, scenario_a_first, scenario_a_pose, estimated_point.
  cbn [s_position s_bearing s_elevation latitude longitude altitude].
  rewrite estimate_distance_scenario_a.
  unfold _calculate_target_coordinates, earth_radius.
  replace (Np.radians 0) with 0 by (unfold Np.radians; ring).
  rewrite cos_0, sin_0. unfold Np.degrees.
  replace (200 / 6371000 * 0 / cos (Np.radians 40)) with 0
    by (unfold Rdiv; ring).
  unfold Np.radians. pose proof PI_neq0. f_equal; field; assumption.
Qed.

Lemma sighting_point_second :
  sighting_point scenario_a_second
  = (40, -74 + 36000 / 6371000 / PI / cos (Np.radians 40)).
Proof.
  unfold sighting_point, scenario_a_second, scenario_a_pose, estimated_point.
  cbn [s_position s_bearing s_elevation latitude longitude altitude].
  rewrite estimate_distance_scenario_a.
  unfold _calculate_target_coordinates, earth_radius.
  replace (Np.radians 90) with (PI / 2) by (unfold Np.radians; field).
  rewrite cos_PI2, sin_PI2. unfold Np.degrees.
  pose proof cos_40_bounds as Hc. set (c := cos (Np.radians 40)) in *.
  unfold Np.radians. pose proof PI_neq0.
  f_equal; field; repeat split; try assumption; lra.
Qed.

Lemma weighted_average_two (p q : R * R) :
  _calculate_weighted_average [p; q] [1; 1]
  = ((p.1 + q.1) / 2, (p.2 + q.2) / 2).
Proof.
  unfold _calculate_weighted_average, average_axis0, normalized_weights, Np.sum.
  cbn. f_equal; field.
Qed.

Lemma offset_bounds :
  0.0017986 < 36000 / 6371000 / PI < 0.0017987 /\
  0.0023479 < 36000 / 6371000 / PI / cos (Np.radians 40) < 0.002348.
Proof.
  pose proof PI_bounds as [Hp1 Hp2].
  pose proof cos_40_bounds as [Hc1 Hc2].
  set (c := cos (Np.radians 40)) in *.
  assert (Hx : / 3.1416 < / PI < / 3.14159).
  { split; apply Rinv_lt_contravar; try assumption; nra. }
  assert (Hy : / 0.76605 < / c < / 0.76604).
  { split; apply Rinv_lt_contravar; try assumption; nra. }
  unfold Rdiv. set (x := / PI) in *. set (y := / c) in *.
  assert (Ha : / 3.1416 = 10000 / 31416) by lra.
  assert (Hb : / 3.14159 = 100000 / 314159) by lra.
  assert (Hd : / 0.76605 = 100000 / 76605) by lra.
  assert (He : / 0.76604 = 100000 / 76604) by lra.
  rewrite Ha, Hb in Hx. rewrite Hd, He in Hy.
  split; [lra|]. nra.
Qed.

(** C1.  For a target that holds the two observations of scenario A, each
    observation gets a distance of about 200 m, the estimated points are
    about (40.0018, -74.0) and (40.0, -73.99765), and the position returned
    by [calculate_position] is about (40.0009, -73.99883); coordinates agree
    to half a unit of the fifth decimal. *)
Theorem scenario_a_position (t : string) (o1 o2 : Observation) (now : R)
    (s : Engine) :
  s !! t = Some [o1; o2] ->
  sighting_of o1 = scenario_a_first ->
  sighting_of o2 = scenario_a_second ->
  Forall (fun o => Rabs (_estimate_distance (altitude (drone_position o))
                           (Np.radians (target_elevation o)) - 200) < 0.001)
         [o1; o2] /\
  (exists p1 p2 : R * R,
     _calculate_estimated_points (_extract_observation_data [o1; o2]) = [p1; p2] /\
     Rabs (p1.1 - 40.0018) < coordinate_tolerance /\
     Rabs (p1.2 - -74) < coordinate_tolerance /\
     Rabs (p2.1 - 40) < coordinate_tolerance /\
     Rabs (p2.2 - -73.99765) < coordinate_tolerance) /\
  (exists e : PositionEstimate,
     (calculate_position t now s).1 = CalcOk e /\
     observations_count e = 2%nat /\
     Rabs (est_latitude e - 40.0009) < coordinate_tolerance /\
     Rabs (est_longitude e - -73.99883) < coordinate_tolerance).
Proof.
  intros Hs H1 H2.
  pose proof offset_bounds as [[Ha1 Ha2] [Hb1 Hb2]].
  set (a := 36000 / 6371000 / PI) in *.
  set (b := a / cos (Np.radians 40)) in *.
  assert (Hpts : _calculate_estimated_points (_extract_observation_data [o1; o2])
                 = [(40 + a, -74); (40, -74 + b)]).
  { rewrite estimated_points_map. cbn [map]. rewrite H1, H2.
    rewrite sighting_point_first, sighting_point_second. reflexivity. }
  assert (Hw : weights (_extract_observation_data [o1; o2]) = [1; 1]).
  { rewrite weights_map. cbn [map]. rewrite H1, H2. reflexivity. }
  unfold coordinate_tolerance.
  split; [|split].
  - assert (Hd : forall o g, sighting_of o = g ->
                 altitude (s_position g) = 100 -> s_elevation g = 30 ->
                 Rabs (_estimate_distance (altitude (drone_position o))
                         (Np.radians (target_elevation o)) - 200) < 0.001).
    { intros o g <- Halt Hel. cbn in Halt, Hel. rewrite Halt, Hel.
      rewrite estimate_distance_scenario_a.
      rewrite Rminus_diag, Rabs_R0. lra. }
    repeat constructor; eapply Hd; eauto.
  - exists (40 + a, -74), (40, -74 + b). split; [exact Hpts|].
    cbn [fst snd]. repeat split; apply Rabs_def1; lra.
  - rewrite calculate_position_run, Hs. cbn [length Nat.ltb Nat.leb fst].
    eexists. split; [reflexivity|].
    unfold position_of, _build_result.
    cbn [observations_count est_latitude est_longitude length].
    rewrite Hpts, Hw, weighted_average_two. cbn [fst snd].
    split; [reflexivity|]. split; apply Rabs_def1; lra.
Qed.

Lemma scenario_a_engine_lookup :
  exists now1 now2 : R,
    scenario_a_engine !! scenario_a_target
    = Some [mkObservation (observation_id_of scenario_a_target 0)
              scenario_a_pose 0 30 1 now1;
            mkObservation (observation_id_of scenario_a_target 1)
              scenario_a_pose 90 30 1 now2].
Proof.
  exists 10, 11.
  unfold scenario_a_engine, scenario_a_calls, add_sightings.
  cbn [map run_calls]. unfold run_call, mbind, M_bind, mret, M_ret.
  rewrite create_target_run. cbn [fst snd].
  fold scenario_a_target.
  rewrite add_observation_run. cbn [fst snd].
  rewrite lookup_insert_eq. cbn [default from_option Datatypes.id length app].
  rewrite add_observation_run. cbn [fst snd].
  rewrite !lookup_insert_eq. cbn [default from_option Datatypes.id length app].
  reflexivity.
Qed.

Lemma scenario_a_position_witness :
  exists e : PositionEstimate,
    (calculate_position scenario_a_target 20 scenario_a_engine).1 = CalcOk e /\
    Rabs (est_latitude e - 40.0009) < coordinate_tolerance /\
    Rabs (est_longitude e - -73.99883) < coordinate_tolerance.
Proof.
  destruct scenario_a_engine_lookup as (now1 & now2 & Hs).
  destruct (scenario_a_position scenario_a_target _ _ 20 scenario_a_engine Hs
              eq_refl eq_refl) as (_ & _ & e & He & _ & Hlat & Hlon).
  exists e. repeat split; assumption.
Defined.

(** ** Confidence score *)





(** * Further properties of the engine *)

(** ** Targets: creation, reset, listing *)

Lemma get_all_targets_elem (t : string) (s : Engine) :
  t ∈ (get_all_targets s).1 <-> is_Some (s !! t).
Proof.
  unfold get_all_targets; run_monad. rewrite elem_of_elements, elem_of_dom.
  reflexivity.
Qed.

(** X1.  [get_all_targets] lists exactly the targets that have a bucket,
    each once, and leaves the engine as it is. *)
Theorem get_all_targets_spec (s : Engine) :
  (forall t, t ∈ (get_all_targets s).1 <-> is_Some (s !! t)) /\
  NoDup (get_all_targets s).1 /\
  length (get_all_targets s).1 = size s /\
  (get_all_targets s).2 = s.
Proof.
  split; [intros t; apply get_all_targets_elem|].
  unfold get_all_targets; run_monad.
  split; [apply NoDup_elements|]. split; [|reflexivity].
  rewrite <- size_dom. reflexivity.
Qed.

(** X2.  [reset_target] answers whether the target had a bucket; afterwards
    the target is not listed, [calculate_position] answers [NotFound] for it,
    every other target keeps its observations, and a second reset answers
    false and changes nothing. *)
Theorem reset_target_spec (t : string) (now : R) (s : Engine) :
  (reset_target t s).1 = bool_decide (is_Some (s !! t)) /\
  (reset_target t s).2 !! t = None /\
  (t ∉ (get_all_targets (reset_target t s).2).1) /\
  (forall t', t' <> t -> (reset_target t s).2 !! t' = s !! t') /\
  (calculate_position t now (reset_target t s).2).1 = CalcError (NotFound t) /\
  reset_target t (reset_target t s).2 = (false, (reset_target t s).2).
Proof.
  rewrite reset_target_run. cbn [fst snd].
  assert (Hnone : delete t s !! t = None) by apply lookup_delete_eq.
  split; [reflexivity|]. split; [exact Hnone|]. split.
  { rewrite get_all_targets_elem, Hnone. intros [? ?]; discriminate. }
  split; [intros t' Hne; apply lookup_delete_ne; congruence|].
  split; [rewrite calculate_position_run, Hnone; reflexivity|].
  rewrite reset_target_run, Hnone, delete_id by exact Hnone.
  reflexivity.
Qed.

(** X3.  [create_target] returns ["target_"] followed by the generated
    digits; afterwards the target is listed with no observations, so
    [calculate_position] answers [InsufficientData 0]; every other target
    keeps its observations.  When the generated id is already in use, the
    observations stored under it are dropped. *)
Theorem create_target_spec (h : string) (now : R) (s : Engine) :
  (create_target h s).1 = "target_" +:+ h /\
  (create_target h s).2 !! ("target_" +:+ h) = Some [] /\
  ("target_" +:+ h) ∈ (get_all_targets (create_target h s).2).1 /\
  (forall t', t' <> "target_" +:+ h -> (create_target h s).2 !! t' = s !! t') /\
  (calculate_position ("target_" +:+ h) now (create_target h s).2).1
    = CalcError (InsufficientData 0).
Proof.
  rewrite create_target_run. cbn [fst snd].
  assert (Hl : <["target_" +:+ h := []]> s !! ("target_" +:+ h)
               = Some ([] : list Observation)) by apply lookup_insert_eq.
  split; [reflexivity|]. split; [exact Hl|]. split.
  { rewrite get_all_targets_elem, Hl. eauto. }
  split; [intros t' Hne; apply lookup_insert_ne; congruence|].
  rewrite calculate_position_run, Hl. reflexivity.
Qed.

(** ** Adding observations *)

(** X4.  [add_observation] appends one observation to the bucket of its
    target, creating the bucket when there is none: the earlier
    observations stay in place, the new one carries the returned id, the
    given pose, angles, confidence and clock value, and no other target is
    touched. *)
Theorem add_observation_spec (t : string) (pos : DronePosition)
    (b e w now : R) (s : Engine) :
  exists o : Observation,
    (add_observation t pos b e w now s).2 !! t = Some (stored_of s t ++ [o]) /\
    id o = (add_observation t pos b e w now s).1 /\
    id o = observation_id_of t (length (stored_of s t)) /\
    sighting_of o = mkSighting pos b e w /\
    timestamp o = now /\
    (forall t', t' <> t ->
       (add_observation t pos b e w now s).2 !! t' = s !! t').
Proof.
  rewrite add_observation_run. cbn [fst snd].
  eexists. split; [apply lookup_insert_eq|].
  cbn. repeat split.
  intros t' Hne. apply lookup_insert_ne. congruence.
Qed.

Lemma stored_length_run (t : string) (cs : list Call) :
  keeps_target t cs = true ->
  forall s : Engine,
    length (stored_of (run_calls cs s) t)
    = (length (stored_of s t) + length (returned_ids t cs s))%nat.
Proof.
  induction cs as [|c cs IH]; intros Hkeep s; [cbn; lia|].
  cbn in Hkeep. apply andb_prop in Hkeep as [Hc Hcs].
  specialize (IH Hcs). cbn [returned_ids run_calls].
  destruct (String.eqb_spec (call_target c) t) as [Heq|Hne].
  - destruct c as [t' pos b e w now|t'|h]; cbn in Heq, Hc; subst;
      try discriminate Hc.
    unfold run_call, mbind, M_bind, mret, M_ret.
    rewrite add_observation_run. cbn [fst snd length].
    rewrite IH, lookup_insert_eq. cbn [default from_option Datatypes.id].
    rewrite length_app. cbn [length]. lia.
  - pose proof (run_call_other c t s Hne) as Hsame.
    destruct (run_call c s) as [r s'] eqn:Hrun. cbn [snd] in *.
    rewrite IH, Hsame. destruct r; reflexivity.
Qed.

(** X5.  Along calls that neither reset nor re-create a target, its number
    of stored observations grows by one for each id that [add_observation]
    returns for it; once that number reaches two, [calculate_position]
    returns an estimate whose observation count is that number. *)
Theorem observation_count_after_calls (t : string) (cs : list Call)
    (now : R) (s : Engine) :
  keeps_target t cs = true ->
  length (stored_of (run_calls cs s) t)
  = (length (stored_of s t) + length (returned_ids t cs s))%nat /\
  ((2 <= length (stored_of s t) + length (returned_ids t cs s))%nat ->
   exists e : PositionEstimate,
     (calculate_position t now (run_calls cs s)).1 = CalcOk e /\
     observations_count e
     = (length (stored_of s t) + length (returned_ids t cs s))%nat).
Proof.
  intros Hkeep. pose proof (stored_length_run t cs Hkeep s) as Hlen.
  split; [exact Hlen|]. intros Hge. rewrite <- Hlen in *.
  rewrite calculate_position_run. cbn [fst].
  destruct (run_calls cs s !! t) as [l|]; cbn in Hge; [|lia].
  destruct (Nat.ltb_spec (length l) 2) as [Hlt|_]; [lia|].
  eexists. split; reflexivity.
Qed.

Lemma observation_count_after_calls_witness :
  keeps_target scenario_a_target scenario_a_calls = true /\
  length (stored_of (run_calls scenario_a_calls ∅) scenario_a_target)
  = (length (stored_of (∅ : Engine) scenario_a_target)
     + length (returned_ids scenario_a_target scenario_a_calls ∅))%nat.
Proof.
  assert (H : keeps_target scenario_a_target scenario_a_calls = true)
    by reflexivity.
  split; [exact H|].
  exact (proj1 (observation_count_after_calls scenario_a_target
                  scenario_a_calls 0 ∅ H)).
Defined.

(** X6.  After any sequence of calls on an empty engine, the observations
    stored for a target carry the ids [t_0], [t_1], ... in the order in
    which they are stored, so no two stored observations of a target share
    an id. *)
Theorem stored_ids_are_indexed (cs : list Call) (t : string)
    (l : list Observation) :
  run_calls cs ∅ !! t = Some l ->
  map id l = map (observation_id_of t) (seq 0 (length l)) /\
  NoDup (map id l).
Proof.
  intros Hl.
  assert (Hids : map id l = map (observation_id_of t) (seq 0 (length l))).
  { apply (ids_by_index_run cs ∅ ids_by_index_empty), Hl. }
  split; [exact Hids|]. rewrite Hids.
  apply (@NoDup_fmap_2 _ _ _ (observation_id_of_inj t)), NoDup_seq.
Qed.

Lemma stored_ids_are_indexed_witness :
  exists l : list Observation,
    scenario_a_engine !! scenario_a_target = Some l /\ NoDup (map id l).
Proof.
  destruct scenario_a_engine_lookup as (now1 & now2 & Hs).
  eexists. split; [exact Hs|].
  exact (proj2 (stored_ids_are_indexed _ _ _ Hs)).
Defined.

(** ** The weighted centroid *)

Lemma zip_with_scale (k : R) (a ws : list R) :
  zip_with Rmult a (map (fun w => w / k) ws)
  = map (fun x => x / k) (zip_with Rmult a ws).
Proof.
  revert ws. induction a as [|x a IH]; intros [|w ws]; cbn; try reflexivity.
  rewrite IH. f_equal. unfold Rdiv. ring.
Qed.

Lemma weighted_average_sums (pts : list (R * R)) (ws : list R) :
  Np.sum ws <> 0 ->
  _calculate_weighted_average pts ws
  = (Np.sum (zip_with Rmult (map fst pts) ws) / Np.sum ws,
     Np.sum (zip_with Rmult (map snd pts) ws) / Np.sum ws).
Proof.
  intros Hsum.
  unfold _calculate_weighted_average, average_axis0, normalized_weights.
  rewrite !zip_with_scale, !sum_scale. f_equal; field; exact Hsum.
Qed.

(** X7.  When the confidences do not sum to zero, the fused position is the
    confidence-weighted mean of the estimated points: the sum of
    confidence times coordinate over the sum of the confidences (the second
    division by the sum of the normalised weights changes nothing). *)
Theorem weighted_average_closed_form (pts : list (R * R)) (ws : list R) :
  Np.sum ws <> 0 ->
  _calculate_weighted_average pts ws
  = (Np.sum (zip_with Rmult (map fst pts) ws) / Np.sum ws,
     Np.sum (zip_with Rmult (map snd pts) ws) / Np.sum ws).
Proof. apply weighted_average_sums. Qed.

Lemma weighted_average_closed_form_witness :
  Np.sum [0.9; 0.85] <> 0 /\
  _calculate_weighted_average [(1, 2); (3, 4)] [0.9; 0.85]
  = (Np.sum (zip_with Rmult (map fst [(1, 2); (3, 4)]) [0.9; 0.85])
       / Np.sum [0.9; 0.85],
     Np.sum (zip_with Rmult (map snd [(1, 2); (3, 4)]) [0.9; 0.85])
       / Np.sum [0.9; 0.85]).
Proof.
  assert (H : Np.sum [0.9; 0.85] <> 0) by (unfold Np.sum; cbn; lra).
  split; [exact H|].
  exact (weighted_average_closed_form [(1, 2); (3, 4)] [0.9; 0.85] H).
Defined.

Lemma sum_scale_l (k : R) (l : list R) :
  Np.sum (map (Rmult k) l) = k * Np.sum l.
Proof.
  unfold Np.sum. induction l as [|w l IH]; cbn; [ring|].
  fold (map (Rmult k) l). rewrite IH. ring.
Qed.

Lemma zip_with_scale_l (k : R) (a ws : list R) :
  zip_with Rmult a (map (Rmult k) ws) = map (Rmult k) (zip_with Rmult a ws).
Proof.
  revert ws. induction a as [|x a IH]; intros [|w ws]; cbn; try reflexivity.
  rewrite IH. f_equal. ring.
Qed.

(** X8.  Only the ratios of the confidences matter: multiplying every
    confidence by the same non-zero factor leaves the fused position as it
    is. *)
Theorem weighted_average_scale_invariant (k : R) (pts : list (R * R))
    (ws : list R) :
  k <> 0 ->
  Np.sum ws <> 0 ->
  _calculate_weighted_average pts (map (Rmult k) ws)
  = _calculate_weighted_average pts ws.
Proof.
  intros Hk Hsum.
  assert (Hsum' : Np.sum (map (Rmult k) ws) <> 0).
  { rewrite sum_scale_l. apply Rmult_integral_contrapositive_currified;
      assumption. }
  rewrite (weighted_average_sums _ _ Hsum), (weighted_average_sums _ _ Hsum').
  rewrite !zip_with_scale_l, !sum_scale_l. f_equal; field; split; assumption.
Qed.

Lemma weighted_average_scale_invariant_witness :
  100 <> 0 /\
  Np.sum [0.9; 0.85] <> 0 /\
  _calculate_weighted_average [(1, 2); (3, 4)] (map (Rmult 100) [0.9; 0.85])
  = _calculate_weighted_average [(1, 2); (3, 4)] [0.9; 0.85].
Proof.
  assert (Hk : 100 <> 0) by lra.
  assert (H : Np.sum [0.9; 0.85] <> 0) by (unfold Np.sum; cbn; lra).
  split; [exact Hk|]. split; [exact H|].
  exact (weighted_average_scale_invariant 100 [(1, 2); (3, 4)] [0.9; 0.85] Hk H).
Defined.

Lemma weighted_sum_bounds (lo hi : R) (a ws : list R) :
  length a = length ws ->
  Forall (fun x => lo <= x <= hi) a ->
  Forall (fun w => 0 <= w) ws ->
  lo * Np.sum ws <= Np.sum (zip_with Rmult a ws) <= hi * Np.sum ws.
Proof.
  unfold Np.sum. revert ws.
  induction a as [|x a IH]; intros [|w ws] Hlen Ha Hw; try discriminate; cbn.
  - lra.
  - inversion Ha as [|? ? Hx Ha']; inversion Hw as [|? ? Hw0 Hw']; subst.
    injection Hlen as Hlen. specialize (IH ws Hlen Ha' Hw'). nra.
Qed.

Lemma quotient_bounds (lo hi x k : R) :
  0 < k -> lo * k <= x <= hi * k -> lo <= x / k <= hi.
Proof.
  intros Hk [Hlo Hhi].
  assert (Hinv : 0 <= / k) by (left; apply Rinv_0_lt_compat; exact Hk).
  pose proof (Rmult_le_compat_r _ _ _ Hinv Hlo) as H1.
  pose proof (Rmult_le_compat_r _ _ _ Hinv Hhi) as H2.
  replace (lo * k * / k) with lo in H1 by (field; lra).
  replace (hi * k * / k) with hi in H2 by (field; lra).
  unfold Rdiv. split; assumption.
Qed.

(** X9.  With confidences that are not negative and not all zero, the fused
    position lies within the range of the estimated points: its latitude is
    between the least and the greatest estimated latitude, and likewise its
    longitude. *)
Theorem weighted_average_in_range (pts : list (R * R)) (ws : list R)
    (lat_lo lat_hi lon_lo lon_hi : R) :
  length pts = length ws ->
  Forall (fun w => 0 <= w) ws ->
  0 < Np.sum ws ->
  Forall (fun p => lat_lo <= p.1 <= lat_hi /\ lon_lo <= p.2 <= lon_hi) pts ->
  lat_lo <= (_calculate_weighted_average pts ws).1 <= lat_hi /\
  lon_lo <= (_calculate_weighted_average pts ws).2 <= lon_hi.
Proof.
  intros Hlen Hw Hsum Hpts.
  rewrite weighted_average_sums by lra. cbn [fst snd].
  assert (H1 : lat_lo * Np.sum ws
               <= Np.sum (zip_with Rmult (map fst pts) ws)
               <= lat_hi * Np.sum ws).
  { apply weighted_sum_bounds; [rewrite length_map; exact Hlen | | exact Hw].
    apply Forall_fmap. eapply Forall_impl; [exact Hpts|]. cbn. tauto. }
  assert (H2 : lon_lo * Np.sum ws
               <= Np.sum (zip_with Rmult (map snd pts) ws)
               <= lon_hi * Np.sum ws).
  { apply weighted_sum_bounds; [rewrite length_map; exact Hlen | | exact Hw].
    apply Forall_fmap. eapply Forall_impl; [exact Hpts|]. cbn. tauto. }
  split; apply quotient_bounds; assumption.
Qed.

Lemma weighted_average_in_range_witness :
  1 <= (_calculate_weighted_average [(1, 2); (3, 4)] [0.9; 0.85]).1 <= 3 /\
  2 <= (_calculate_weighted_average [(1, 2); (3, 4)] [0.9; 0.85]).2 <= 4.
Proof.
  apply (weighted_average_in_range [(1, 2); (3, 4)] [0.9; 0.85] 1 3 2 4).
  - reflexivity.
  - repeat constructor; lra.
  - unfold Np.sum; cbn; lra.
  - repeat constructor; cbn; lra.
Defined.

(** X10.  When all observations have the same non-zero confidence, the
    fused position is the plain mean of the estimated points. *)
Theorem weighted_average_equal_confidence (c : R) (pts : list (R * R)) :
  c <> 0 ->
  pts <> [] ->
  _calculate_weighted_average pts (map (fun _ => c) pts)
  = (Np.average (map fst pts), Np.average (map snd pts)).
Proof.
  intros Hc Hpts.
  assert (Hn : INR (length pts) <> 0).
  { apply not_0_INR. destruct pts; [congruence | discriminate]. }
  assert (Hws : Np.sum (map (fun _ : R * R => c) pts) = c * INR (length pts)).
  { clear. unfold Np.sum. induction pts as [|p pts IH]; [cbn; ring|].
    cbn [map foldr length]. rewrite IH, S_INR. ring. }
  assert (Hz : forall f : R * R -> R,
             Np.sum (zip_with Rmult (map f pts) (map (fun _ => c) pts))
             = c * Np.sum (map f pts)).
  { intros f. rewrite zip_with_map_map. clear. unfold Np.sum.
    induction pts as [|p pts IH]; cbn; [ring|]. rewrite IH. ring. }
  rewrite weighted_average_sums
    by (rewrite Hws; apply Rmult_integral_contrapositive_currified; assumption).
  rewrite !Hz, Hws. unfold Np.average. rewrite !length_map.
  f_equal; field; split; assumption.
Qed.

Lemma weighted_average_equal_confidence_witness :
  _calculate_weighted_average [(1, 2); (3, 4)]
    (map (fun _ => 0.9) [(1, 2); (3, 4)])
  = (Np.average (map fst [(1, 2); (3, 4)]),
     Np.average (map snd [(1, 2); (3, 4)])).
Proof.
  apply (weighted_average_equal_confidence 0.9 [(1, 2); (3, 4)]).
  - lra.
  - discriminate.
Defined.

(** ** Precision metrics *)

Lemma norm2_nonneg (p : R * R) : 0 <= Np.norm2 p.
Proof. apply sqrt_pos. Qed.

Lemma distances_nonneg (pts : list (R * R)) (c : R * R) :
  Forall (fun d => 0 <= d) (distances_from pts c).
Proof.
  unfold distances_from. apply Forall_fmap, Forall_forall.
  intros p _. apply norm2_nonneg.
Qed.

Lemma sum_nonneg (l : list R) : Forall (fun d => 0 <= d) l -> 0 <= Np.sum l.
Proof.
  unfold Np.sum. induction 1 as [|d l Hd _ IH]; cbn; lra.
Qed.

Lemma sum_le_max (l : list R) (m : R) :
  Forall (fun d => d <= m) l -> Np.sum l <= INR (length l) * m.
Proof.
  unfold Np.sum. induction 1 as [|d l Hd _ IH]; [cbn; lra|].
  cbn [foldr length]. rewrite S_INR. lra.
Qed.

Lemma average_nonneg (l : list R) :
  Forall (fun d => 0 <= d) l -> 0 <= Np.average l.
Proof.
  intros Hl. unfold Np.average, Rdiv. destruct l as [|d l].
  - unfold Np.sum. cbn. lra.
  - apply Rmult_le_pos; [apply sum_nonneg, Hl|].
    left. apply Rinv_0_lt_compat, lt_0_INR. cbn. lia.
Qed.

Lemma average_le_max (l : list R) : l <> [] -> Np.average l <= Np.max l.
Proof.
  intros Hl. destruct (max_in_ub l Hl) as [_ Hub].
  pose proof (sum_le_max l _ Hub) as Hs.
  assert (Hn : 0 < INR (length l)).
  { apply lt_0_INR. destruct l; [congruence | cbn; lia]. }
  unfold Np.average.
  apply (quotient_bounds (Np.sum l / INR (length l)) (Np.max l)); [exact Hn|].
  split; [|lra]. unfold Rdiv. right. field. lra.
Qed.

(** X11.  For at least one estimated point, the mean spread is not negative
    and not above the greatest deviation: [0 <= meters <=
    max_deviation_meters]. *)
Theorem precision_metrics_ordered (pts : list (R * R)) (c : R * R) (n : nat) :
  pts <> [] ->
  0 <= meters (_calculate_precision_metrics pts c n)
    <= max_deviation_meters (_calculate_precision_metrics pts c n).
Proof.
  intros Hpts. unfold _calculate_precision_metrics. cbn [meters max_deviation_meters].
  assert (Hd : distances_from pts c <> []).
  { unfold distances_from. destruct pts; [congruence | discriminate]. }
  pose proof (average_nonneg _ (distances_nonneg pts c)) as H0.
  pose proof (average_le_max _ Hd) as H1.
  split; [nra | lra].
Qed.

Lemma precision_metrics_ordered_witness :
  0 <= meters (_calculate_precision_metrics [(1, 2); (3, 4)] (2, 3) 2)
    <= max_deviation_meters
         (_calculate_precision_metrics [(1, 2); (3, 4)] (2, 3) 2).
Proof.
  apply (precision_metrics_ordered [(1, 2); (3, 4)] (2, 3) 2). discriminate.
Defined.

Lemma tanh_range (x : R) : 0 <= x -> 0 <= tanh x < 1.
Proof.
  intros Hx. unfold tanh, sinh, cosh.
  pose proof (exp_pos x) as Hp. pose proof (exp_pos (- x)) as Hm.
  assert (Hle : exp (- x) <= exp x).
  { destruct Hx as [Hx| <-]; [left; apply exp_increasing; lra|].
    rewrite Ropp_0. lra. }
  set (a := exp x) in *. set (b := exp (- x)) in *.
  assert (Hc : 0 < (a + b) / 2) by lra.
  split.
  - apply Rmult_le_pos; [lra | left; apply Rinv_0_lt_compat; exact Hc].
  - apply (Rmult_lt_reg_r ((a + b) / 2)); [exact Hc|].
    replace ((a - b) / 2 / ((a + b) / 2) * ((a + b) / 2)) with ((a - b) / 2)
      by (field; lra).
    lra.
Qed.

Lemma tanh_le_1_bound (x : R) : 0 <= x <= 1 -> tanh x <= 0.8.
Proof.
  intros [Hx0 Hx1]. unfold tanh, sinh, cosh.
  pose proof (exp_pos x) as Hp.
  assert (Ha : exp x <= 3).
  { eapply Rle_trans; [|exact exp_le_3].
    destruct Hx1 as [Hx1| ->]; [left; apply exp_increasing; exact Hx1 | lra]. }
  assert (Hb : exp (- x) = / exp x) by apply exp_Ropp.
  rewrite Hb. set (a := exp x) in *.
  assert (Hinv : / a * a = 1) by (field; lra).
  assert (Hge : / 3 <= / a) by (apply Rinv_le_contravar; lra).
  set (b := / a) in *.
  assert (Hc : 0 < (a + b) / 2) by lra.
  apply (Rmult_le_reg_r ((a + b) / 2)); [exact Hc|].
  replace ((a - b) / 2 / ((a + b) / 2) * ((a + b) / 2))
    with ((a - b) / 2) by (field; lra).
  nra.
Qed.

Lemma precision_confidence_bound_by_tanh (pts : list (R * R)) (c : R * R)
    (n : nat) :
  precision_confidence (_calculate_precision_metrics pts c n)
    <= 100 * tanh (INR n / 3) /\
  precision_confidence (_calculate_precision_metrics pts c n) < 100 /\
  (0.001 <= Np.average (distances_from pts c) ->
   precision_confidence (_calculate_precision_metrics pts c n) = 0).
Proof.
  unfold _calculate_precision_metrics, raw_confidence.
  cbn [precision_confidence].
  pose proof (average_nonneg _ (distances_nonneg pts c)) as Havg.
  set (avg := Np.average (distances_from pts c)) in *.
  assert (Ht : 0 <= tanh (INR n / 3) < 1).
  { apply tanh_range. pose proof (pos_INR n). lra. }
  set (T := tanh (INR n / 3)) in *.
  assert (Hfac : 1 - avg / 0.001 <= 1) by lra.
  assert (Hc : 100 * (1 - avg / 0.001) * T <= 100 * T) by nra.
  assert (Hmin : Rmin 99 (100 * (1 - avg / 0.001) * T)
                 <= 100 * (1 - avg / 0.001) * T) by apply Rmin_r.
  split; [apply Rmax_lub; lra|].
  split.
  { apply Rmax_lub_lt; [lra|].
    pose proof (Rmin_l 99 (100 * (1 - avg / 0.001) * T)). lra. }
  intros Hfar.
  assert (Hneg : 100 * (1 - avg / 0.001) * T <= 0) by nra.
  apply Rmax_left. lra.
Qed.

(** X12.  The confidence never exceeds [100 * tanh (n / 3)] for [n]
    observations, so it stays below 100 however tight the points are; and
    it is 0 as soon as the mean spread reaches 0.001 degrees. *)
Theorem precision_confidence_caps (pts : list (R * R)) (c : R * R) (n : nat) :
  precision_confidence (_calculate_precision_metrics pts c n)
    <= 100 * tanh (INR n / 3) /\
  precision_confidence (_calculate_precision_metrics pts c n) < 100 /\
  (0.001 <= Np.average (distances_from pts c) ->
   precision_confidence (_calculate_precision_metrics pts c n) = 0).
Proof. apply precision_confidence_bound_by_tanh. Qed.

(** X13.  A target with two or three observations whose confidences do not
    sum to zero never gets a confidence above 80, wherever the observations
    point. *)
Theorem few_observations_confidence (t : string) (now : R) (s : Engine)
    (obs : list Observation) :
  s !! t = Some obs ->
  (2 <= length obs <= 3)%nat ->
  Np.sum (map confidence obs) <> 0 ->
  exists e : PositionEstimate,
    (calculate_position t now s).1 = CalcOk e /\
    precision_confidence (precision e) <= 80.
Proof.
  intros Hobs [Hge Hle] _.
  rewrite calculate_position_run, Hobs. cbn [fst].
  destruct (Nat.ltb_spec (length obs) 2) as [Hlt|_]; [lia|].
  eexists. split; [reflexivity|].
  unfold position_of, _build_result. cbn [precision].
  match goal with
  | |- precision_confidence (_calculate_precision_metrics ?p ?c ?n) <= _ =>
      destruct (precision_confidence_bound_by_tanh p c n) as [Hcap _]
  end.
  eapply Rle_trans; [exact Hcap|].
  assert (Hn : 0 <= INR (length obs) / 3 <= 1).
  { pose proof (pos_INR (length obs)).
    pose proof (le_INR _ _ Hle) as H3. cbn [INR] in H3. lra. }
  pose proof (tanh_le_1_bound _ Hn). lra.
Qed.

Lemma few_observations_confidence_witness :
  exists e : PositionEstimate,
    (calculate_position scenario_a_target 20 scenario_a_engine).1 = CalcOk e /\
    precision_confidence (precision e) <= 80.
Proof.
  destruct scenario_a_engine_lookup as (now1 & now2 & Hs).
  apply (few_observations_confidence scenario_a_target 20 scenario_a_engine _ Hs).
  - cbn. lia.
  - unfold Np.sum. cbn. lra.
Defined.

(** ** Distance and projection *)

Lemma estimate_distance_in_range (altitude elevation : R) :
  0 <= altitude ->
  0 < elevation < PI ->
  Rmin altitude 10000 <= _estimate_distance altitude elevation <= 10000.
Proof.
  intros Halt [H0 Hpi].
  unfold _estimate_distance, distance_before_clamp.
  destruct (Rlt_dec 0 elevation) as [_|Hn]; [|contradiction].
  pose proof (sin_gt_0 _ H0 Hpi) as Hs.
  pose proof (SIN_bound elevation) as [_ Hs1].
  assert (Hinv : 1 <= / sin elevation).
  { rewrite <- Rinv_1. apply Rinv_le_contravar; assumption. }
  assert (Hq : altitude <= altitude / sin elevation) by (unfold Rdiv; nra).
  split; [|apply Rmin_r].
  apply Rmin_glb; [|apply Rmin_r].
  eapply Rle_trans; [apply Rmin_l | exact Hq].
Qed.

(** X14.  For an altitude that is not negative and an elevation strictly
    between 0 and 180 degrees, the distance estimate is at least the
    altitude (or 10000 when the altitude is larger) and at most 10000. *)
Theorem estimate_distance_range (altitude elevation : R) :
  0 <= altitude ->
  0 < elevation < PI ->
  Rmin altitude 10000 <= _estimate_distance altitude elevation <= 10000.
Proof. apply estimate_distance_in_range. Qed.

Lemma estimate_distance_range_witness :
  Rmin 100 10000 <= _estimate_distance 100 (PI / 6) <= 10000.
Proof.
  pose proof PI_RGT_0.
  apply (estimate_distance_range 100 (PI / 6)); [lra | split; lra].
Defined.

(** X15.  The estimate has no lower bound: for a positive altitude and an
    elevation strictly between 180 and 360 degrees the sine is negative and
    the returned distance is negative. *)
Theorem estimate_distance_negative (altitude elevation_deg : R) :
  0 < altitude ->
  180 < elevation_deg < 360 ->
  _estimate_distance altitude (Np.radians elevation_deg) < 0.
Proof.
  intros Halt [H1 H2]. pose proof PI_RGT_0 as Hpi.
  assert (Hlo : PI < Np.radians elevation_deg).
  { unfold Np.radians. replace PI with (180 * (PI / 180)) at 1 by field.
    apply Rmult_lt_compat_r; lra. }
  assert (Hhi : Np.radians elevation_deg < 2 * PI).
  { unfold Np.radians. replace (2 * PI) with (360 * (PI / 180)) by field.
    apply Rmult_lt_compat_r; lra. }
  unfold _estimate_distance, distance_before_clamp.
  destruct (Rlt_dec 0 (Np.radians elevation_deg)) as [_|Hn]; [|lra].
  pose proof (sin_lt_0 _ Hlo Hhi) as Hs.
  assert (Hinv : / sin (Np.radians elevation_deg) < 0)
    by (apply Rinv_lt_0_compat; exact Hs).
  assert (Hq : altitude / sin (Np.radians elevation_deg) < 0)
    by (unfold Rdiv; nra).
  eapply Rle_lt_trans; [apply Rmin_l | exact Hq].
Qed.

Lemma estimate_distance_negative_witness :
  _estimate_distance 100 (Np.radians 270) < 0.
Proof.
  apply (estimate_distance_negative 100 270); [lra | split; lra].
Defined.

(** X16.  Bearings are used as they are given, and the projection has the
    period of the sine and cosine: a bearing of [b + 360] degrees gives the
    same estimated point as [b]. *)
Theorem estimated_point_bearing_period (position : R * R * R)
    (bearing_deg elevation_deg : R) :
  estimated_point position (bearing_deg + 360) elevation_deg
  = estimated_point position bearing_deg elevation_deg.
Proof.
  destruct position as [[lat lon] alt].
  unfold estimated_point, _calculate_target_coordinates.
  assert (Hb : Np.radians (bearing_deg + 360) = Np.radians bearing_deg + 2 * PI).
  { unfold Np.radians. field. }
  rewrite Hb, cos_plus, sin_plus, cos_2PI, sin_2PI.
  rewrite !Rmult_1_r, !Rmult_0_r, Rminus_0_r, Rplus_0_r. reflexivity.
Qed.

Lemma degrees_of_radians_plus (lat x : R) :
  Np.degrees (Np.radians lat + x) = lat + x * (180 / PI).
Proof. unfold Np.degrees, Np.radians. field. apply PI_neq0. Qed.

(** X17.  For an altitude that is not negative and an elevation below 180
    degrees, the estimated point is never more than 0.09 degrees of
    latitude away from the drone, whatever the bearing. *)
Theorem estimated_latitude_near_drone (lat lon alt bearing_deg elevation_deg : R) :
  0 <= alt ->
  elevation_deg < 180 ->
  Rabs ((estimated_point (lat, lon, alt) bearing_deg elevation_deg).1 - lat)
    <= 0.09.
Proof.
  intros Halt Hel. pose proof PI_RGT_0 as Hpi.
  unfold estimated_point, _calculate_target_coordinates. cbn [fst].
  rewrite degrees_of_radians_plus.
  set (d := _estimate_distance alt (Np.radians elevation_deg)).
  assert (Hd : 0 <= d <= 10000).
  { subst d. destruct (Rlt_dec 0 elevation_deg) as [Hpos|Hneg].
    - assert (Hr : 0 < Np.radians elevation_deg < PI).
      { unfold Np.radians. split; [apply Rmult_lt_0_compat; lra|].
        replace PI with (180 * (PI / 180)) at 2 by field.
        apply Rmult_lt_compat_r; lra. }
      destruct (estimate_distance_in_range alt _ Halt Hr) as [Hlo Hhi].
      split; [|exact Hhi].
      eapply Rle_trans; [|exact Hlo]. apply Rmin_glb; lra.
    - assert (Hr : Np.radians elevation_deg <= 0).
      { unfold Np.radians.
        replace 0 with (0 * (PI / 180)) by ring.
        apply Rmult_le_compat_r; lra. }
      unfold _estimate_distance, distance_before_clamp.
      destruct (Rlt_dec 0 (Np.radians elevation_deg)); [lra|].
      rewrite Rmin_left; lra. }
  pose proof (COS_bound (Np.radians bearing_deg)) as [Hc1 Hc2].
  set (c := cos (Np.radians bearing_deg)) in *.
  pose proof PI_bounds as [Hp1 _].
  assert (Hx : 0 < / PI < / 3.14159).
  { split; [apply Rinv_0_lt_compat; lra | apply Rinv_lt_contravar; nra]. }
  assert (Hb : / 3.14159 = 100000 / 314159) by lra.
  rewrite Hb in Hx. unfold earth_radius.
  replace (lat + d / 6371000 * c * (180 / PI) - lat)
    with (d * c * (180 / 6371000) * / PI) by (field; lra).
  set (x := / PI) in *.
  assert (Hdc : -10000 <= d * c <= 10000) by nra.
  apply Rabs_le. split; nra.
Qed.

Lemma estimated_latitude_near_drone_witness :
  Rabs ((estimated_point (40, -74, 100) 0 30).1 - 40) <= 0.09.
Proof.
  apply (estimated_latitude_near_drone 40 (-74) 100 0 30); lra.
Defined.

(** * Further properties of the correlator *)

(** ** GPS extraction and the correlation stub *)

Lemma extract_gps_data_cases (tel : GeoCorrelator.Telemetry) :
  match GeoCorrelator._extract_gps_data tel with
  | inl msg =>
      msg = GeoCorrelator.missing_gps_message /\
      (GeoCorrelator.py_not
         (GeoCorrelator.gps_latitude
            (default (GeoCorrelator.mkGps None None) (GeoCorrelator.gps tel)))
       = true \/
       GeoCorrelator.py_not
         (GeoCorrelator.gps_longitude
            (default (GeoCorrelator.mkGps None None) (GeoCorrelator.gps tel)))
       = true)
  | inr d =>
      exists g : GeoCorrelator.Gps,
        GeoCorrelator.gps tel = Some g /\
        GeoCorrelator.gps_latitude g = Some (GeoCorrelator.gd_latitude d) /\
        GeoCorrelator.gps_longitude g = Some (GeoCorrelator.gd_longitude d) /\
        GeoCorrelator.gd_latitude d <> 0 /\
        GeoCorrelator.gd_longitude d <> 0 /\
        GeoCorrelator.gd_altitude d = default 0 (GeoCorrelator.tel_altitude tel)
  end.
Proof.
  unfold GeoCorrelator._extract_gps_data.
  destruct tel as [[[lat lon]|] alt ori]; cbn.
  - destruct lat as [lat|]; cbn; [|split; [reflexivity | left; reflexivity]].
    destruct (Req_dec_T lat 0) as [Hlat|Hlat]; cbn;
      [split; [reflexivity | left; reflexivity]|].
    destruct lon as [lon|]; cbn; [|split; [reflexivity | right; reflexivity]].
    destruct (Req_dec_T lon 0) as [Hlon|Hlon]; cbn;
      [split; [reflexivity | right; reflexivity]|].
    eexists. repeat split; assumption.
  - split; [reflexivity | left; reflexivity].
Qed.

Lemma py_not_spec (v : option R) :
  GeoCorrelator.py_not v = true <-> v = None \/ v = Some 0.
Proof.
  destruct v as [x|]; cbn; [|tauto].
  destruct (Req_dec_T x 0) as [->|Hx]; split; intros H; auto.
  - discriminate.
  - destruct H as [H|H]; [discriminate | injection H as H; contradiction].
Qed.

(** X18.  [_extract_gps_data] answers the missing-GPS error exactly when the
    latitude or the longitude is absent or equal to 0; otherwise it returns
    both coordinates as given, with the altitude of the telemetry or 0 when
    there is none. *)
Theorem extract_gps_data_spec (tel : GeoCorrelator.Telemetry) :
  match GeoCorrelator._extract_gps_data tel with
  | inl msg =>
      msg = GeoCorrelator.missing_gps_message /\
      exists lat lon : option R,
        default (GeoCorrelator.mkGps None None) (GeoCorrelator.gps tel)
        = GeoCorrelator.mkGps lat lon /\
        (lat = None \/ lat = Some 0 \/ lon = None \/ lon = Some 0)
  | inr d =>
      exists g : GeoCorrelator.Gps,
        GeoCorrelator.gps tel = Some g /\
        GeoCorrelator.gps_latitude g = Some (GeoCorrelator.gd_latitude d) /\
        GeoCorrelator.gps_longitude g = Some (GeoCorrelator.gd_longitude d) /\
        GeoCorrelator.gd_latitude d <> 0 /\
        GeoCorrelator.gd_longitude d <> 0 /\
        GeoCorrelator.gd_altitude d = default 0 (GeoCorrelator.tel_altitude tel)
  end.
Proof.
  pose proof (extract_gps_data_cases tel) as H.
  destruct (GeoCorrelator._extract_gps_data tel) as [msg|d]; [|exact H].
  destruct H as [Hmsg Hnot]. split; [exact Hmsg|].
  destruct (default (GeoCorrelator.mkGps None None) (GeoCorrelator.gps tel))
    as [lat lon].
  exists lat, lon. split; [reflexivity|]. cbn in Hnot.
  rewrite !py_not_spec in Hnot. tauto.
Qed.

(** X19.  With both coordinates present and different from 0,
    [correlate_drone_image] succeeds: it reports the coordinates, moves them
    by 0.0001 north and 0.0002 west, gives the fixed confidence 0.85 and half
    the altitude as coverage radius, and says [high_confidence] exactly when
    the threshold is at most 0.85. *)
Theorem correlate_drone_image_success (lat lon threshold now : R)
    (alt : option R) (ori : option GeoCorrelator.Orientation) :
  lat <> 0 ->
  lon <> 0 ->
  exists r : GeoCorrelator.CorrelationResult,
    GeoCorrelator.correlate_drone_image
      (GeoCorrelator.mkTelemetry
         (Some (GeoCorrelator.mkGps (Some lat) (Some lon))) alt ori)
      threshold now = inr r /\
    GeoCorrelator.original_coordinates r = (lat, lon) /\
    GeoCorrelator.corrected_coordinates r = (lat + 0.0001, lon - 0.0002) /\
    GeoCorrelator.correlation_confidence r = 0.85 /\
    GeoCorrelator.coverage_radius_meters r = default 0 alt * 0.5 /\
    (GeoCorrelator.status r = GeoCorrelator.high_confidence
     <-> threshold <= 0.85).
Proof.
  intros Hlat Hlon.
  unfold GeoCorrelator.correlate_drone_image, GeoCorrelator._extract_gps_data,
    GeoCorrelator.py_not; cbn.
  destruct (Req_dec_T lat 0) as [?|_]; [contradiction|].
  destruct (Req_dec_T lon 0) as [?|_]; [contradiction|]. cbn.
  eexists. split; [reflexivity|]. cbn. repeat split.
  - destruct (Rle_dec threshold 0.85); [intros _; assumption | discriminate].
  - intros Hle. destruct (Rle_dec threshold 0.85); [reflexivity | contradiction].
Qed.

Lemma correlate_drone_image_success_witness :
  exists r : GeoCorrelator.CorrelationResult,
    GeoCorrelator.correlate_drone_image
      (GeoCorrelator.mkTelemetry
         (Some (GeoCorrelator.mkGps (Some 40.416775) (Some (-3.703790))))
         None None)
      0.6 0 = inr r /\
    GeoCorrelator.status r = GeoCorrelator.high_confidence.
Proof.
  destruct (correlate_drone_image_success 40.416775 (-3.703790) 0.6 0 None None)
    as (r & Hr & _ & _ & _ & _ & Hst); [lra | lra |].
  exists r. split; [exact Hr|]. apply Hst. lra.
Defined.

(** ** Pixel rotation and mapping *)

Lemma rotation_sq (x y a : R) :
  (x * cos a - y * sin a) * (x * cos a - y * sin a)
  + (x * sin a + y * cos a) * (x * sin a + y * cos a)
  = x * x + y * y.
Proof.
  pose proof (sin2_cos2 a) as H. unfold Rsqr in H.
  replace ((x * cos a - y * sin a) * (x * cos a - y * sin a)
           + (x * sin a + y * cos a) * (x * sin a + y * cos a))
    with ((x * x + y * y) * (sin a * sin a + cos a * cos a)) by ring.
  rewrite H. ring.
Qed.

(** X20.  [_apply_rotation] keeps the length of the pixel offset, for every
    yaw. *)
Theorem apply_rotation_isometry (x y yaw_degrees : R) :
  (GeoCorrelator._apply_rotation x y yaw_degrees).1
    * (GeoCorrelator._apply_rotation x y yaw_degrees).1
  + (GeoCorrelator._apply_rotation x y yaw_degrees).2
    * (GeoCorrelator._apply_rotation x y yaw_degrees).2
  = x * x + y * y.
Proof. unfold GeoCorrelator._apply_rotation. cbn [fst snd]. apply rotation_sq. Qed.

(** X21.  Rotations compose by adding the yaws: rotating by [a] and then by
    [b] is rotating by [a + b]; in particular rotating back by [- a] returns
    the original offset. *)
Theorem apply_rotation_compose (x y a b : R) :
  GeoCorrelator._apply_rotation
    (GeoCorrelator._apply_rotation x y a).1
    (GeoCorrelator._apply_rotation x y a).2 b
  = GeoCorrelator._apply_rotation x y (a + b) /\
  GeoCorrelator._apply_rotation
    (GeoCorrelator._apply_rotation x y a).1
    (GeoCorrelator._apply_rotation x y a).2 (- a)
  = (x, y).
Proof.
  assert (Hcomp : forall a b,
    GeoCorrelator._apply_rotation
      (GeoCorrelator._apply_rotation x y a).1
      (GeoCorrelator._apply_rotation x y a).2 b
    = GeoCorrelator._apply_rotation x y (a + b)).
  { intros a' b'. unfold GeoCorrelator._apply_rotation. cbn [fst snd].
    replace (Np.radians (a' + b')) with (Np.radians a' + Np.radians b')
      by (unfold Np.radians; ring).
    rewrite cos_plus, sin_plus. f_equal; ring. }
  split; [apply Hcomp|].
  rewrite Hcomp. replace (a + - a) with 0 by ring.
  unfold GeoCorrelator._apply_rotation, Np.radians.
  rewrite Rmult_0_l, cos_0, sin_0. f_equal; ring.
Qed.

(** X22.  A yaw of 90 degrees turns the offset [(x, y)] into [(- y, x)], a
    yaw of 180 degrees into [(- x, - y)], and a yaw of 360 degrees leaves it
    as it is. *)
Theorem apply_rotation_quarter_turns (x y : R) :
  GeoCorrelator._apply_rotation x y 90 = (- y, x) /\
  GeoCorrelator._apply_rotation x y 180 = (- x, - y) /\
  GeoCorrelator._apply_rotation x y 360 = (x, y).
Proof.
  unfold GeoCorrelator._apply_rotation.
  replace (Np.radians 90) with (PI / 2) by (unfold Np.radians; field).
  replace (Np.radians 180) with PI by (unfold Np.radians; field).
  replace (Np.radians 360) with (2 * PI) by (unfold Np.radians; field).
  rewrite cos_PI2, sin_PI2, cos_PI, sin_PI, cos_2PI, sin_2PI.
  repeat split; f_equal; ring.
Qed.

Lemma transform_displacement (x y : R) (td : GeoCorrelator.TelemetryData) :
  (GeoCorrelator.rc_latitude
     (GeoCorrelator._transform_pixel_to_coordinates (x, y) td)
   - GeoCorrelator.td_latitude td)
  * (GeoCorrelator.rc_latitude
       (GeoCorrelator._transform_pixel_to_coordinates (x, y) td)
     - GeoCorrelator.td_latitude td)
  + (GeoCorrelator.rc_longitude
       (GeoCorrelator._transform_pixel_to_coordinates (x, y) td)
     - GeoCorrelator.td_longitude td)
    * (GeoCorrelator.rc_longitude
         (GeoCorrelator._transform_pixel_to_coordinates (x, y) td)
       - GeoCorrelator.td_longitude td)
  = (GeoCorrelator.td_altitude td / 1000 * 0.00001)
    * (GeoCorrelator.td_altitude td / 1000 * 0.00001) * (x * x + y * y).
Proof.
  destruct td as [lat lon alt yaw pitch roll].
  unfold GeoCorrelator._transform_pixel_to_coordinates,
    GeoCorrelator._calculate_coordinate_offsets,
    GeoCorrelator._apply_rotation. cbn.
  set (a := Np.radians yaw). set (k := alt / 1000).
  rewrite <- (rotation_sq x y a). ring.
Qed.

Lemma transform_origin (td : GeoCorrelator.TelemetryData) :
  GeoCorrelator.rc_latitude
    (GeoCorrelator._transform_pixel_to_coordinates (0, 0) td)
  = GeoCorrelator.td_latitude td /\
  GeoCorrelator.rc_longitude
    (GeoCorrelator._transform_pixel_to_coordinates (0, 0) td)
  = GeoCorrelator.td_longitude td.
Proof.
  destruct td as [lat lon alt yaw pitch roll].
  unfold GeoCorrelator._transform_pixel_to_coordinates,
    GeoCorrelator._calculate_coordinate_offsets,
    GeoCorrelator._apply_rotation. cbn.
  split; ring.
Qed.

Lemma transform_accuracy (x y : R) (td : GeoCorrelator.TelemetryData) :
  GeoCorrelator.accuracy_meters
    (GeoCorrelator._transform_pixel_to_coordinates (x, y) td)
  = GeoCorrelator.td_altitude td / 100 /\
  GeoCorrelator.rc_altitude
    (GeoCorrelator._transform_pixel_to_coordinates (x, y) td)
  = GeoCorrelator.td_altitude td.
Proof.
  destruct td as [lat lon alt yaw pitch roll].
  unfold GeoCorrelator._transform_pixel_to_coordinates,
    GeoCorrelator._calculate_coordinate_offsets,
    GeoCorrelator._apply_rotation. cbn.
  split; [field | reflexivity].
Qed.

(** X23.  Whatever the yaw, the computed point lies at a distance, in
    degrees, of [altitude / 1000 * 1e-5] times the length of the pixel
    offset from the drone position; the pixel [(0, 0)] maps to the drone
    position itself, the accuracy is a hundredth of the altitude and the
    altitude is passed through.  The drone position and altitude are those
    of the telemetry's ["gps"] and ["altitude"] entries (0, 0 and 100 for an
    absent entry). *)
Theorem real_coordinates_displacement (x y : R)
    (g : option GeoCorrelator.Gps) (alt : option R)
    (ori : option GeoCorrelator.Orientation) :
  let drone_lat :=
    match g with
    | Some g' => default 0 (GeoCorrelator.gps_latitude g')
    | None => 0
    end in
  let drone_lon :=
    match g with
    | Some g' => default 0 (GeoCorrelator.gps_longitude g')
    | None => 0
    end in
  let altitude := default 100 alt in
  let r :=
    GeoCorrelator.calculate_real_coordinates (x, y)
      (GeoCorrelator.mkTelemetry g alt ori) in
  let r0 :=
    GeoCorrelator.calculate_real_coordinates (0, 0)
      (GeoCorrelator.mkTelemetry g alt ori) in
  let k := altitude / 1000 * 0.00001 in
  (GeoCorrelator.rc_latitude r - drone_lat)
    * (GeoCorrelator.rc_latitude r - drone_lat)
  + (GeoCorrelator.rc_longitude r - drone_lon)
    * (GeoCorrelator.rc_longitude r - drone_lon)
  = k * k * (x * x + y * y) /\
  GeoCorrelator.rc_latitude r0 = drone_lat /\
  GeoCorrelator.rc_longitude r0 = drone_lon /\
  GeoCorrelator.accuracy_meters r = altitude / 100 /\
  GeoCorrelator.rc_altitude r = altitude /\
  GeoCorrelator.rc_altitude r0 = altitude.
Proof.
  intros drone_lat drone_lon altitude r r0 k. subst r r0 k.
  unfold GeoCorrelator.calculate_real_coordinates.
  rewrite extract_telemetry_data_fields. fold drone_lat drone_lon altitude.
  set (td := GeoCorrelator.mkTelemetryData drone_lat drone_lon altitude _ _ _).
  pose proof (transform_displacement x y td) as Hd.
  destruct (transform_origin td) as [H1 H2].
  destruct (transform_accuracy x y td) as [H3 H4].
  destruct (transform_accuracy 0 0 td) as [_ H5].
  repeat split; assumption.
Qed.

(** X24.  Missing telemetry is not an error for the pixel mapper: with no
    GPS, no altitude and no orientation it measures from latitude 0,
    longitude 0, at altitude 100 and yaw 0, so the pixel [(x, y)] maps to
    [(- y * 1e-6, x * 1e-6)] with an accuracy of 1. *)
Theorem real_coordinates_defaults (x y : R) :
  GeoCorrelator.calculate_real_coordinates (x, y)
    (GeoCorrelator.mkTelemetry None None None)
  = GeoCorrelator.mkRealCoordinates (0 - y * (100 / 1000) * 0.00001)
      (0 + x * (100 / 1000) * 0.00001) 100 (100 / 1000 * 10) /\
  0 - y * (100 / 1000) * 0.00001 = - y * 0.000001 /\
  0 + x * (100 / 1000) * 0.00001 = x * 0.000001 /\
  100 / 1000 * 10 = 1.
Proof.
  split; [|repeat split; lra].
  unfold GeoCorrelator.calculate_real_coordinates,
    GeoCorrelator._transform_pixel_to_coordinates,
    GeoCorrelator._calculate_coordinate_offsets,
    GeoCorrelator._apply_rotation, GeoCorrelator._extract_telemetry_data.
  cbn. unfold Np.radians. rewrite Rmult_0_l, cos_0, sin_0.
  f_equal; ring.
Qed.

(** * Properties of the service layer *)

(** X25.  With a target id and a bearing, and a real triangulation module,
    the service stores one observation taken from the simulated drone
    position, with elevation 0 and confidence 1 when they are not given;
    it reports the engine's id, the new number of observations of the
    target, and [can_calculate] exactly when that number is at least 2. *)
Theorem service_add_observation_success (t : string) (b now : R)
    (el conf : option R) (s : Engine) :
  GeoService.add_observation false
    (GeoService.mkObservationParams (Some t) (Some b) el conf) now s
  = (GeoService.AddSuccess
       (observation_id_of t (length (stored_of s t)))
       (S (length (stored_of s t)))
       (1 <=? length (stored_of s t))%nat,
     <[t := stored_of s t
            ++ [mkObservation (observation_id_of t (length (stored_of s t)))
                  GeoService._get_mock_drone_position b (default 0 el)
                  (default 1 conf) now]]> s).
Proof.
  unfold GeoService.add_observation. cbn [GeoService.p_target_id
    GeoService.p_target_bearing GeoService.p_target_elevation
    GeoService.p_confidence].
  unfold mbind at 1, M_bind at 1. rewrite add_observation_run.
  run_monad. rewrite lookup_insert_eq. cbn [default from_option Datatypes.id].
  rewrite length_app, Nat.add_1_r. reflexivity.
Qed.

(** X26.  When the target id or the bearing is missing, or the
    triangulation module is a mock, the service answers with an error and
    the engine is left as it was. *)
Theorem service_add_observation_failure (is_mock : bool)
    (params : GeoService.ObservationParams) (now : R) (s : Engine) :
  GeoService.p_target_id params = None \/
  GeoService.p_target_bearing params = None \/
  is_mock = true ->
  exists msg : string,
    GeoService.add_observation is_mock params now s
    = (GeoService.AddFailure msg, s).
Proof.
  intros H. unfold GeoService.add_observation.
  destruct (GeoService.p_target_id params) as [t|]; [|eexists; reflexivity].
  destruct (GeoService.p_target_bearing params) as [b|]; [|eexists; reflexivity].
  destruct is_mock; [eexists; reflexivity|].
  destruct H as [H|[H|H]]; discriminate.
Qed.

Lemma service_add_observation_failure_witness :
  exists msg : string,
    GeoService.add_observation false
      (GeoService.mkObservationParams (Some "t") None None None) 0 ∅
    = (GeoService.AddFailure msg, ∅).
Proof.
  apply (service_add_observation_failure false
           (GeoService.mkObservationParams (Some "t") None None None) 0 ∅).
  right. left. reflexivity.
Defined.

Lemma add_automatic_observations_run (t : string) (now1 now2 : R) (s : Engine) :
  exists o1 o2 : Observation,
    GeoService._add_automatic_observations t now1 now2 s
    = (tt, <[t := stored_of s t ++ [o1; o2]]> s).
Proof.
  unfold GeoService._add_automatic_observations.
  unfold mbind, M_bind. rewrite add_observation_run.
  rewrite add_observation_run. cbn [fst snd mret M_ret].
  rewrite lookup_insert_eq. cbn [default from_option Datatypes.id].
  rewrite insert_insert_eq, <- app_assoc. cbn [app].
  eexists _, _. reflexivity.
Qed.

Lemma calculate_position_real_few (t : string) (now1 now2 now : R) (s : Engine) :
  (length (stored_of s t) < 2)%nat ->
  exists o1 o2 : Observation,
    GeoService._calculate_position_real t now1 now2 now s
    = (GeoService.PositionSuccess
         (service_position_of (position_of t (stored_of s t ++ [o1; o2]) now)),
       <[t := stored_of s t ++ [o1; o2]]> s).
Proof.
  intros Hlt.
  destruct (add_automatic_observations_run t now1 now2 s) as (o1 & o2 & Hrun).
  exists o1, o2.
  unfold GeoService._calculate_position_real.
  unfold mbind, M_bind, get_observations.
  assert (Hcond : match s !! t with
                  | None => true
                  | Some l => (length l <? 2)%nat
                  end = true).
  { destruct (s !! t) as [l|]; [|reflexivity].
    apply Nat.ltb_lt. exact Hlt. }
  rewrite Hcond, Hrun, calculate_position_run, lookup_insert_eq.
  destruct (Nat.ltb_spec (length (stored_of s t ++ [o1; o2])) 2) as [Hbad|_].
  - rewrite length_app in Hbad. cbn in Hbad. lia.
  - reflexivity.
Qed.

Lemma calculate_position_real_enough (t : string) (now1 now2 now : R)
    (s : Engine) (l : list Observation) :
  s !! t = Some l ->
  (2 <= length l)%nat ->
  GeoService._calculate_position_real t now1 now2 now s
  = (GeoService.PositionSuccess (service_position_of (position_of t l now)), s).
Proof.
  intros Hl Hge.
  unfold GeoService._calculate_position_real.
  unfold mbind, M_bind, get_observations.
  rewrite Hl.
  destruct (Nat.ltb_spec (length l) 2) as [Hbad|_]; [lia|].
  cbn [mret M_ret]. rewrite calculate_position_run, Hl.
  destruct (Nat.ltb_spec (length l) 2) as [Hbad|_]; [lia|].
  reflexivity.
Qed.

(** X27.  The service's position calculation never fails for lack of
    observations: a target with fewer than two observations (or with none at
    all) first receives two built-in demonstration observations, so the
    call succeeds with [n + 2] observations and changes the engine; a target
    with two or more observations is computed as it is and the engine is
    left unchanged. *)
Theorem service_calculate_position_real (t : string) (now1 now2 now : R)
    (s : Engine) :
  exists sp : GeoService.ServicePosition,
    (GeoService._calculate_position_real t now1 now2 now s).1
    = GeoService.PositionSuccess sp /\
    GeoService.sp_observations_count sp
    = (if (length (stored_of s t) <? 2)%nat
       then length (stored_of s t) + 2
       else length (stored_of s t))%nat /\
    length (stored_of (GeoService._calculate_position_real t now1 now2 now s).2 t)
    = GeoService.sp_observations_count sp /\
    ((2 <= length (stored_of s t))%nat ->
     (GeoService._calculate_position_real t now1 now2 now s).2 = s) /\
    (forall t', t' <> t ->
       (GeoService._calculate_position_real t now1 now2 now s).2 !! t' = s !! t').
Proof.
  destruct (Nat.ltb_spec (length (stored_of s t)) 2) as [Hlt|Hge].
  - destruct (calculate_position_real_few t now1 now2 now s Hlt)
      as (o1 & o2 & ->).
    cbn [fst snd]. eexists. split; [reflexivity|].
    unfold service_position_of, position_of, _build_result.
    cbn [GeoService.sp_observations_count observations_count].
    rewrite lookup_insert_eq. cbn [default from_option Datatypes.id].
    rewrite length_app. cbn [length].
    repeat split; [lia|].
    intros t' Hne. apply lookup_insert_ne. congruence.
  - destruct (s !! t) as [l|] eqn:Hl; cbn in Hge; [|lia].
    rewrite (calculate_position_real_enough t now1 now2 now s l Hl Hge).
    cbn [fst snd]. eexists. split; [reflexivity|].
    unfold service_position_of, position_of, _build_result.
    cbn [GeoService.sp_observations_count observations_count].
    rewrite Hl. repeat split.
Qed.

(** * Degenerate inputs of the fusion *)

(** X28.  An observation of confidence 0 has no influence on the fused
    position (it still counts as an observation and still enters the
    precision metrics). *)
Theorem zero_confidence_ignored (p : R * R) (pts : list (R * R)) (ws : list R) :
  Np.sum ws <> 0 ->
  _calculate_weighted_average (p :: pts) (0 :: ws)
  = _calculate_weighted_average pts ws.
Proof.
  intros Hsum.
  assert (Hsum' : Np.sum (0 :: ws) = Np.sum ws)
    by (unfold Np.sum; cbn; ring).
  rewrite (weighted_average_sums (p :: pts) (0 :: ws))
    by (rewrite Hsum'; exact Hsum).
  rewrite (weighted_average_sums pts ws Hsum), Hsum'.
  assert (Hz : forall a (l : list R),
             Np.sum (zip_with Rmult (a :: l) (0 :: ws))
             = Np.sum (zip_with Rmult l ws))
    by (intros a l; unfold Np.sum; cbn; ring).
  cbn [map]. rewrite !Hz. reflexivity.
Qed.

Lemma zero_confidence_ignored_witness :
  _calculate_weighted_average [(9, 9); (1, 2); (3, 4)] [0; 0.9; 0.85]
  = _calculate_weighted_average [(1, 2); (3, 4)] [0.9; 0.85].
Proof.
  apply (zero_confidence_ignored (9, 9) [(1, 2); (3, 4)] [0.9; 0.85]).
  unfold Np.sum; cbn; lra.
Defined.

Lemma sum_zip_constant (a : R) (ws : list R) :
  Np.sum (zip_with Rmult (map (fun _ => a) ws) ws) = a * Np.sum ws.
Proof.
  unfold Np.sum. induction ws as [|w ws IH]; cbn; [ring|]. rewrite IH. ring.
Qed.

Lemma sum_zeros {A} (l : list A) : Np.sum (map (fun _ => 0) l) = 0.
Proof.
  unfold Np.sum. induction l as [|a l IH]; cbn; [reflexivity|].
  rewrite IH. ring.
Qed.

Lemma max_zeros {A} (l : list A) : Np.max (map (fun _ => 0) l) = 0.
Proof.
  destruct l as [|a l]; [reflexivity|]. cbn.
  induction l as [|b l IH]; cbn; [reflexivity|].
  rewrite IH. apply Rmax_left. lra.
Qed.

(** X29.  When every observation yields the same estimated point and the
    confidences do not sum to zero, the fused position is that point, the
    spread and the greatest deviation are 0, and the confidence is
    [100 * tanh (n / 3)], or 99 when that is larger. *)
Theorem coincident_points (p : R * R) (ws : list R) (n : nat) :
  Np.sum ws <> 0 ->
  _calculate_weighted_average (map (fun _ => p) ws) ws = p /\
  meters (_calculate_precision_metrics (map (fun _ => p) ws) p n) = 0 /\
  max_deviation_meters
    (_calculate_precision_metrics (map (fun _ => p) ws) p n) = 0 /\
  precision_confidence
    (_calculate_precision_metrics (map (fun _ => p) ws) p n)
  = Rmin 99 (100 * tanh (INR n / 3)).
Proof.
  intros Hsum. split.
  - rewrite weighted_average_sums by exact Hsum.
    rewrite !map_map. cbn [fst snd].
    rewrite !sum_zip_constant. destruct p as [a b]. cbn [fst snd].
    f_equal; field; exact Hsum.
  - assert (Hd : distances_from (map (fun _ => p) ws) p
                 = map (fun _ => 0) ws).
    { unfold distances_from. rewrite map_map. apply map_ext. intros _.
      unfold Np.norm2. cbn [fst snd]. rewrite !Rminus_diag, Rmult_0_l, Rplus_0_l.
      apply sqrt_0. }
    unfold _calculate_precision_metrics, raw_confidence.
    cbn [meters max_deviation_meters precision_confidence].
    rewrite Hd, max_zeros. unfold Np.average. rewrite sum_zeros.
    replace (0 / INR (length (map (fun _ : R => 0) ws))) with 0
      by (unfold Rdiv; ring).
    split; [ring|]. split; [ring|].
    assert (Ht : 0 <= tanh (INR n / 3) < 1).
    { apply tanh_range. pose proof (pos_INR n). lra. }
    replace (100 * (1 - 0 / 0.001) * tanh (INR n / 3))
      with (100 * tanh (INR n / 3)) by (unfold Rdiv; ring).
    apply Rmax_right. apply Rmin_glb; lra.
Qed.

Lemma coincident_points_witness :
  _calculate_weighted_average (map (fun _ => (40, -74)) [0.9; 0.85])
    [0.9; 0.85] = (40, -74).
Proof.
  apply (coincident_points (40, -74) [0.9; 0.85] 2).
  unfold Np.sum; cbn; lra.
Defined.
